(** * SevenStar Dispatch: the planner, the store and the distance estimate

    A shallow embedding of [src/App.jsx]: the in-memory store of [useStore],
    the load planner of [PlannerPage] ([addItem], [handleCreateLoad]) and
    the great-circle estimate of the live map ([haversineDistance],
    [handleETA]); then the handlers of the sites page, the drivers section
    and the proof-of-delivery page, the planner's notification, and the
    pages together as one session.

    Conventions of the embedding.
    - Ids and clock readings are JavaScript numbers that hold integers;
      they are modelled by [Z].
    - Gallon quantities are doubles.  The planner is read twice: on
      integers ([Z]), which is what the code computes as long as the
      quantities and their sums are integers of fewer than 54 bits; and,
      in [Float64], on every double, with the addition and the comparison
      of binary64.  The capacity of a load is settled on the second
      reading; the first serves the pages, where quantities are carried
      and not added.
    - A React state cell is a record field; an event handler is a function
      from the state of the render it closes over to the next state and the
      list of effects it emits (toasts, the driver notification).
    - [Date.now()] and [new Date()] read the clock; the readings are
      arguments of the handlers that perform them.
    - Coordinates and distances are doubles; they are modelled by [Number],
      real arithmetic on finite values with the IEEE special values. *)

From Stdlib Require Import ZArith List String DecimalString Bool Lia.
From Stdlib Require Import Reals Lra.
From Stdlib Require Import Permutation.
From Stdlib Require SpecFloat.
Import ListNotations.

Local Open Scope string_scope.
Local Open Scope list_scope.
Local Open Scope Z_scope.

(** ** Data model *)

(** The three [<option>]s of the grade [<select>]. *)
Inductive Grade : Set := Regular | Premium | Diesel.

Record Tank : Set := mkTank {
  tank_id : Z;
  tank_grade : Grade;
  tank_capacity : Z
}.

Record Site : Set := mkSite {
  site_id : Z;
  site_name : string;
  site_address : string;
  site_phone : string;
  site_tanks : list Tank
}.

Record Driver : Set := mkDriver {
  driver_id : Z;
  driver_name : string;
  driver_phone : string
}.

(** [{ grade, qty }] *)
Record LoadItem : Set := mkItem {
  item_grade : Grade;
  item_qty : Z
}.

(** The value of the [siteId] and [driverId] state cells: the empty string
    they start from when there is nothing to select, or a number. *)
Inductive Selection : Set :=
| NoSelection
| Selected (id : Z).

Inductive Status : Set := Planned | Delivered.

(** A load; [load_deliveredAt] is [None] while the object has no
    [deliveredAt] property. *)
Record Load : Set := mkLoad {
  load_id : Z;
  load_siteId : Selection;
  load_driverId : Selection;
  load_items : list LoadItem;
  load_status : Status;
  load_createdAt : Z;
  load_deliveredAt : option Z
}.

(** The three state cells of [useStore]. *)
Record Store : Set := mkStore {
  sites : list Site;
  drivers : list Driver;
  loads : list Load
}.

(** ** JavaScript values *)

(** [!v] is [negb (truthy v)]: the empty string and the number 0 are falsy. *)
Definition truthy (s : Selection) : bool :=
  match s with
  | NoSelection => false
  | Selected n => negb (n =? 0)
  end.

(** [x === id] for a state cell [x] and a number [id]. *)
Definition sel_is (s : Selection) (id : Z) : bool :=
  match s with
  | NoSelection => false
  | Selected n => n =? id
  end.

(** [v || ""] for an optional number [v] ([undefined] when absent). *)
Definition or_empty (v : option Z) : Selection :=
  match v with
  | Some n => if n =? 0 then NoSelection else Selected n
  | None => NoSelection
  end.

(** ** The store ([useStore]) *)

Definition initialStore : Store :=
  {| sites :=
       [ {| site_id := 101;
            site_name := "Shell – Clifton";
            site_address := "123 MLK Dr, Cincinnati OH";
            site_phone := "+15135559876";
            site_tanks := [ mkTank 1 Regular 10000; mkTank 2 Premium 8000 ] |} ];
     drivers := [ mkDriver 1 "R. Singh" "+15135551234" ];
     loads := [] |}.

(** An object spread over a site: a field of the patch, when present,
    replaces the field of the site. *)
Record SitePatch : Set := mkSitePatch {
  sp_id : option Z;
  sp_name : option string;
  sp_address : option string;
  sp_phone : option string;
  sp_tanks : option (list Tank)
}.

Record DriverPatch : Set := mkDriverPatch {
  dp_id : option Z;
  dp_name : option string;
  dp_phone : option string
}.

Definition over {A : Type} (old : A) (new : option A) : A :=
  match new with Some a => a | None => old end.

(** [{ ...s, ...patch }] *)
Definition spread_site (s : Site) (patch : SitePatch) : Site :=
  {| site_id := over (site_id s) (sp_id patch);
     site_name := over (site_name s) (sp_name patch);
     site_address := over (site_address s) (sp_address patch);
     site_phone := over (site_phone s) (sp_phone patch);
     site_tanks := over (site_tanks s) (sp_tanks patch) |}.

(** [{ ...d, ...patch }] *)
Definition spread_driver (d : Driver) (patch : DriverPatch) : Driver :=
  {| driver_id := over (driver_id d) (dp_id patch);
     driver_name := over (driver_name d) (dp_name patch);
     driver_phone := over (driver_phone d) (dp_phone patch) |}.

Definition setSites (f : list Site -> list Site) (st : Store) : Store :=
  {| sites := f (sites st); drivers := drivers st; loads := loads st |}.

Definition setDrivers (f : list Driver -> list Driver) (st : Store) : Store :=
  {| sites := sites st; drivers := f (drivers st); loads := loads st |}.

Definition setLoads (f : list Load -> list Load) (st : Store) : Store :=
  {| sites := sites st; drivers := drivers st; loads := f (loads st) |}.

(** *** Site helpers *)

Definition addSite (site : Site) : Store -> Store :=
  setSites (fun s => s ++ [site]).

Definition updateSite (id : Z) (patch : SitePatch) : Store -> Store :=
  setSites (fun prev =>
    map (fun s => if site_id s =? id then spread_site s patch else s) prev).

Definition deleteSite (id : Z) : Store -> Store :=
  setSites (fun prev => filter (fun s => negb (site_id s =? id)) prev).

Definition addTankToSite (siteId : Z) (tank : Tank) : Store -> Store :=
  setSites (fun prev =>
    map (fun s =>
           if site_id s =? siteId
           then {| site_id := site_id s;
                   site_name := site_name s;
                   site_address := site_address s;
                   site_phone := site_phone s;
                   site_tanks := site_tanks s ++ [tank] |}
           else s) prev).

(** *** Driver helpers *)

Definition addDriver (d : Driver) : Store -> Store :=
  setDrivers (fun ds => ds ++ [d]).

Definition updateDriver (id : Z) (patch : DriverPatch) : Store -> Store :=
  setDrivers (fun prev =>
    map (fun d => if driver_id d =? id then spread_driver d patch else d) prev).

Definition deleteDriver (id : Z) : Store -> Store :=
  setDrivers (fun prev => filter (fun d => negb (driver_id d =? id)) prev).

(** *** Load helpers *)

Definition addLoad (l : Load) : Store -> Store :=
  setLoads (fun ls => ls ++ [l]).

(** [{ ...l, status: "Delivered", deliveredAt: new Date().toISOString() }];
    [now] is the reading of [new Date()]. *)
Definition deliver (now : Z) (l : Load) : Load :=
  {| load_id := load_id l;
     load_siteId := load_siteId l;
     load_driverId := load_driverId l;
     load_items := load_items l;
     load_status := Delivered;
     load_createdAt := load_createdAt l;
     load_deliveredAt := Some now |}.

Definition markLoadDelivered (now : Z) (id : Z) : Store -> Store :=
  setLoads (fun prev =>
    map (fun l => if load_id l =? id then deliver now l else l) prev).

(** ** Effects of the handlers *)

Inductive Effect : Set :=
| ToastError (msg : string)
| ToastSuccess (msg : string)
| NotifyDriver (load : Load) (driver : option Driver).

(** ** The load planner ([PlannerPage]) *)

Record Planner : Set := mkPlanner {
  p_siteId : Selection;
  p_driverId : Selection;
  p_items : list LoadItem;
  p_grade : Grade;
  p_qty : Z
}.

(** The initial values of the [useState] cells, read off the store. *)
Definition mountPlanner (st : Store) : Planner :=
  {| p_siteId := or_empty (option_map site_id (nth_error (sites st) 0));
     p_driverId := or_empty (option_map driver_id (nth_error (drivers st) 0));
     p_items := [];
     p_grade := Regular;
     p_qty := 0 |}.

Definition setSiteId (s : Selection) (p : Planner) : Planner :=
  {| p_siteId := s; p_driverId := p_driverId p; p_items := p_items p;
     p_grade := p_grade p; p_qty := p_qty p |}.

Definition setDriverId (s : Selection) (p : Planner) : Planner :=
  {| p_siteId := p_siteId p; p_driverId := s; p_items := p_items p;
     p_grade := p_grade p; p_qty := p_qty p |}.

Definition setItems (f : list LoadItem -> list LoadItem) (p : Planner) : Planner :=
  {| p_siteId := p_siteId p; p_driverId := p_driverId p; p_items := f (p_items p);
     p_grade := p_grade p; p_qty := p_qty p |}.

Definition setGrade (g : Grade) (p : Planner) : Planner :=
  {| p_siteId := p_siteId p; p_driverId := p_driverId p; p_items := p_items p;
     p_grade := g; p_qty := p_qty p |}.

Definition setQty (q : Z) (p : Planner) : Planner :=
  {| p_siteId := p_siteId p; p_driverId := p_driverId p; p_items := p_items p;
     p_grade := p_grade p; p_qty := q |}.

(** [items.reduce((sum, i) => sum + i.qty, 0)] *)
Definition totalQty (items : list LoadItem) : Z :=
  fold_left (fun sum i => sum + item_qty i) items 0.

Definition maxGal : Z := 8800.

Definition addItem (p : Planner) : Planner * list Effect :=
  if p_qty p =? 0 then (p, [ToastError "Qty?"])
  else if totalQty (p_items p) + p_qty p >? maxGal
       then (p, [ToastError "Exceeds 8,800 gal"])
       else (setQty 0
               (setItems (fun it => it ++ [mkItem (p_grade p) (p_qty p)]) p),
             []).

(** The two ways [addItem] ends: the item [{ grade, qty }] is appended and
    the quantity cell cleared, or an error toast is shown and nothing is
    set. *)
Definition appended (p : Planner) : Planner :=
  {| p_siteId := p_siteId p;
     p_driverId := p_driverId p;
     p_items := p_items p ++ [mkItem (p_grade p) (p_qty p)];
     p_grade := p_grade p;
     p_qty := 0 |}.

Definition accepted (p : Planner) : Prop :=
  addItem p = (appended p, []).

Definition rejected (p : Planner) (msg : string) : Prop :=
  addItem p = (p, [ToastError msg]).

(** The whole application state the planner handlers act on. *)
Record App : Set := mkApp {
  store : Store;
  planner : Planner
}.

(** [sites.find((s) => s.id === l.siteId)] *)
Definition findSite (ss : list Site) (siteId : Selection) : option Site :=
  find (fun s => sel_is siteId (site_id s)) ss.

(** [drivers.find((d) => d.id === driverId)] *)
Definition findDriver (ds : list Driver) (driverId : Selection) : option Driver :=
  find (fun d => sel_is driverId (driver_id d)) ds.

(** [now] is the reading of [Date.now()], [stamp] the one of [new Date()].
    [notifyDriver] is asynchronous and touches no state: the call is
    recorded as an effect. *)
Definition handleCreateLoad (now stamp : Z) (a : App) : App * list Effect :=
  let p := planner a in
  if negb (truthy (p_siteId p)) || negb (truthy (p_driverId p))
     || (List.length (p_items p) =? 0)%nat
  then (a, [ToastError "Fill all fields"])
  else
    let load :=
      {| load_id := now;
         load_siteId := p_siteId p;
         load_driverId := p_driverId p;
         load_items := p_items p;
         load_status := Planned;
         load_createdAt := stamp;
         load_deliveredAt := None |} in
    ({| store := addLoad load (store a);
        planner := setItems (fun _ => []) p |},
     [ToastSuccess "Load created";
      NotifyDriver load (findDriver (drivers (store a)) (p_driverId p))]).

(** ** The application as a state machine

    One event per store operation and per planner action.  [addLoad] has a
    single caller, [handleCreateLoad], and is reached through it.  The
    planner's [<select>]s and number input store [+e.target.value]. *)

Inductive Event : Set :=
| EvAddSite (site : Site)
| EvUpdateSite (id : Z) (patch : SitePatch)
| EvDeleteSite (id : Z)
| EvAddTankToSite (siteId : Z) (tank : Tank)
| EvAddDriver (d : Driver)
| EvUpdateDriver (id : Z) (patch : DriverPatch)
| EvDeleteDriver (id : Z)
| EvMarkLoadDelivered (now : Z) (id : Z)
| EvMountPlanner
| EvSetSiteId (v : Z)
| EvSetDriverId (v : Z)
| EvSetGrade (g : Grade)
| EvSetQty (v : Z)
| EvAddItem
| EvCreateLoad (now stamp : Z).

Definition onStore (f : Store -> Store) (a : App) : App :=
  {| store := f (store a); planner := planner a |}.

Definition onPlanner (f : Planner -> Planner) (a : App) : App :=
  {| store := store a; planner := f (planner a) |}.

Definition dispatch (e : Event) (a : App) : App :=
  match e with
  | EvAddSite site => onStore (addSite site) a
  | EvUpdateSite id patch => onStore (updateSite id patch) a
  | EvDeleteSite id => onStore (deleteSite id) a
  | EvAddTankToSite siteId tank => onStore (addTankToSite siteId tank) a
  | EvAddDriver d => onStore (addDriver d) a
  | EvUpdateDriver id patch => onStore (updateDriver id patch) a
  | EvDeleteDriver id => onStore (deleteDriver id) a
  | EvMarkLoadDelivered now id => onStore (markLoadDelivered now id) a
  | EvMountPlanner => onPlanner (fun _ => mountPlanner (store a)) a
  | EvSetSiteId v => onPlanner (setSiteId (Selected v)) a
  | EvSetDriverId v => onPlanner (setDriverId (Selected v)) a
  | EvSetGrade g => onPlanner (setGrade g) a
  | EvSetQty v => onPlanner (setQty v) a
  | EvAddItem => onPlanner (fun p => fst (addItem p)) a
  | EvCreateLoad now stamp => fst (handleCreateLoad now stamp a)
  end.

Definition initialApp : App :=
  {| store := initialStore; planner := mountPlanner initialStore |}.

Definition run (es : list Event) (a : App) : App :=
  fold_left (fun acc e => dispatch e acc) es a.

(** ** Numbers of the live map

    A double is a finite value or one of the IEEE special values.  Finite
    values are reals and finite arithmetic is exact (no rounding, no
    overflow); the two zeros are not told apart and count as [+0]. *)

Inductive Number : Set :=
| Fin (r : R)
| PosInf
| NegInf
| NaN.

Definition is_finite (x : Number) : bool :=
  match x with Fin _ => true | _ => false end.

Definition num_add (x y : Number) : Number :=
  match x, y with
  | NaN, _ | _, NaN => NaN
  | Fin a, Fin b => Fin (a + b)
  | PosInf, NegInf | NegInf, PosInf => NaN
  | PosInf, _ | _, PosInf => PosInf
  | NegInf, _ | _, NegInf => NegInf
  end.

Definition num_sub (x y : Number) : Number :=
  match x, y with
  | NaN, _ | _, NaN => NaN
  | Fin a, Fin b => Fin (a - b)
  | PosInf, PosInf | NegInf, NegInf => NaN
  | PosInf, _ | _, NegInf => PosInf
  | NegInf, _ | _, PosInf => NegInf
  end.

(** The product of an infinity of the given sign and a finite [r], which
    is also the quotient of [r] by zero when the sign is positive: the sign
    of [r] decides, and [r = 0] gives [NaN]. *)
Definition signed_inf (positive : bool) (r : R) : Number :=
  if Rlt_dec 0 r then (if positive then PosInf else NegInf)
  else if Rlt_dec r 0 then (if positive then NegInf else PosInf)
  else NaN.

Definition num_mul (x y : Number) : Number :=
  match x, y with
  | NaN, _ | _, NaN => NaN
  | Fin a, Fin b => Fin (a * b)
  | Fin a, PosInf | PosInf, Fin a => signed_inf true a
  | Fin a, NegInf | NegInf, Fin a => signed_inf false a
  | PosInf, PosInf | NegInf, NegInf => PosInf
  | PosInf, NegInf | NegInf, PosInf => NegInf
  end.

Definition num_div (x y : Number) : Number :=
  match x, y with
  | NaN, _ | _, NaN => NaN
  | Fin a, Fin b => if Req_dec_T b 0 then signed_inf true a else Fin (a / b)
  | Fin _, (PosInf | NegInf) => Fin 0
  | PosInf, Fin b => if Rlt_dec b 0 then NegInf else PosInf
  | NegInf, Fin b => if Rlt_dec b 0 then PosInf else NegInf
  | (PosInf | NegInf), (PosInf | NegInf) => NaN
  end.

(** [x ** 2] *)
Definition num_sq (x : Number) : Number :=
  match x with
  | Fin r => Fin (r * r)
  | PosInf | NegInf => PosInf
  | NaN => NaN
  end.

(** The functions of [Math] that the map uses, on the special values as
    ECMAScript defines them. *)
Definition Math_PI : Number := Fin PI.

Definition Math_sin (x : Number) : Number :=
  match x with Fin r => Fin (sin r) | _ => NaN end.

Definition Math_cos (x : Number) : Number :=
  match x with Fin r => Fin (cos r) | _ => NaN end.

Definition Math_sqrt (x : Number) : Number :=
  match x with
  | Fin r => if Rlt_dec r 0 then NaN else Fin (sqrt r)
  | PosInf => PosInf
  | NegInf | NaN => NaN
  end.

(** The angle of the point [(x, y)], in the range from -PI to PI. *)
Definition atan2_fin (y x : R) : R :=
  if Rlt_dec 0 x then atan (y / x)
  else if Rlt_dec x 0
       then (if Rlt_dec y 0 then atan (y / x) - PI else atan (y / x) + PI)
       else if Rlt_dec 0 y then PI / 2
            else if Rlt_dec y 0 then - (PI / 2)
                 else 0.

Definition Math_atan2 (y x : Number) : Number :=
  match y, x with
  | NaN, _ | _, NaN => NaN
  | Fin a, Fin b => Fin (atan2_fin a b)
  | Fin _, PosInf => Fin 0
  | Fin a, NegInf => if Rlt_dec a 0 then Fin (- PI) else Fin PI
  | PosInf, Fin _ => Fin (PI / 2)
  | NegInf, Fin _ => Fin (- (PI / 2))
  | PosInf, PosInf => Fin (PI / 4)
  | PosInf, NegInf => Fin (3 * PI / 4)
  | NegInf, PosInf => Fin (- (PI / 4))
  | NegInf, NegInf => Fin (- (3 * PI / 4))
  end.

(** The nearest integer, ties towards [+Infinity]. *)
Definition Math_round (x : Number) : Number :=
  match x with
  | Fin r => Fin (IZR (Zfloor (r + / 2)))
  | _ => x
  end.

Declare Scope num_scope.
Delimit Scope num_scope with num.
Bind Scope num_scope with Number.
Infix "+" := num_add : num_scope.
Infix "-" := num_sub : num_scope.
Infix "*" := num_mul : num_scope.
Infix "/" := num_div : num_scope.

(** ** The live map ([MapPage]) *)

(** [[lon, lat]] *)
Definition LngLat : Set := (Number * Number)%type.

(** Both coordinates are finite numbers. *)
Definition finite_point (p : LngLat) : bool :=
  is_finite (fst p) && is_finite (snd p).

Definition toRad (deg : Number) : Number := (deg * Math_PI / Fin 180)%num.

Definition haversineDistance (p1 p2 : LngLat) : Number :=
  let '(lon1, lat1) := p1 in
  let '(lon2, lat2) := p2 in
  let R := Fin 6371 in
  let dLat := toRad (lat2 - lat1) in
  let dLon := toRad (lon2 - lon1) in
  let a := (num_sq (Math_sin (dLat / Fin 2))
            + Math_cos (toRad lat1) * Math_cos (toRad lat2)
              * num_sq (Math_sin (dLon / Fin 2)))%num in
  let c := (Fin 2 * Math_atan2 (Math_sqrt a) (Math_sqrt (Fin 1 - a)))%num in
  (R * c)%num.

(** The distance and the minutes that [handleETA] derives from two
    positions and a speed. *)
Definition estimate (from to : LngLat) (speedKmH : Number) : Number * Number :=
  let distKm := haversineDistance from to in
  let etaH := (distKm / speedKmH)%num in
  let etaMin := Math_round (etaH * Fin 60)%num in
  (distKm, etaMin).

(** How a call ends: it returns, or it throws. *)
Inductive JsError : Set := TypeError.

Inductive Completion (A : Type) : Type :=
| Return (a : A)
| Throw (e : JsError).
Arguments Return {A} a.
Arguments Throw {A} e.

(** The toast of [handleETA]: the site's name, the minutes and the
    distance (shown with one decimal). *)
Inductive MapEffect : Set :=
| ToastETA (siteName : string) (etaMin distKm : Number).

(** [mapInstance] tells whether [mapInstance.current] is set;
    [driverMarkers] holds the positions of the markers; reading [name] off a
    missing first site throws. *)
Definition handleETA (mapInstance : bool) (driverMarkers : list LngLat)
    (sites : list Site) : Completion (list MapEffect) :=
  if negb mapInstance then Return []
  else
    match nth_error driverMarkers 0 with
    | None => Return []
    | Some driverPos =>
      let site := nth_error sites 0 in
      let sitePos := (Fin (-84.51), Fin 39.10) in
      let '(distKm, etaMin) := estimate driverPos sitePos (Fin 55) in
      match site with
      | None => Throw TypeError
      | Some site => Return [ToastETA (site_name site) etaMin distKm]
      end
    end.

(** ** More JavaScript values *)

(** [!!s] for a string: only the empty string is falsy. *)
Definition truthy_str (s : string) : bool :=
  match s with
  | EmptyString => false
  | String _ _ => true
  end.

(** [editId] when it is truthy: [null] and 0 are not. *)
Definition truthy_num (v : option Z) : option Z :=
  match v with
  | Some n => if n =? 0 then None else Some n
  | None => None
  end.

(** A template literal prints an integer of at most 53 bits in decimal,
    all its digits.  (A greater double prints the fewest digits that read
    back as it, and from 10^21 in exponent form.) *)
Definition string_of_Z (n : Z) : string :=
  NilZero.string_of_int (Z.to_int n).

Definition grade_name (g : Grade) : string :=
  match g with
  | Regular => "Regular"
  | Premium => "Premium"
  | Diesel => "Diesel"
  end.

Definition status_is (s t : Status) : bool :=
  match s, t with
  | Planned, Planned | Delivered, Delivered => true
  | _, _ => false
  end.

(** A [Set] of ids: its members in the order they were added, each once. *)
Definition IdSet : Set := list Z.

Definition set_has (c : IdSet) (id : Z) : bool :=
  existsb (fun x => x =? id) c.

Definition set_delete (c : IdSet) (id : Z) : IdSet :=
  filter (fun x => negb (x =? id)) c.

Definition set_add (c : IdSet) (id : Z) : IdSet :=
  if set_has c id then c else c ++ [id].

(** ** The sites page ([SitesPage]) *)

(** [{ name, address, phone }] *)
Record SiteForm : Set := mkSiteForm {
  f_name : string;
  f_address : string;
  f_phone : string
}.

(** [{ open, editId }] *)
Record ModalState : Set := mkModal {
  m_open : bool;
  m_editId : option Z
}.

(** [{ grade, capacity }] *)
Record TankForm : Set := mkTankForm {
  nt_grade : Grade;
  nt_capacity : Z
}.

Record SitesPage : Set := mkSitesPage {
  siteModal : ModalState;
  tankModalFor : option Z;
  formSite : SiteForm;
  collapsed : IdSet;
  newTank : TankForm
}.

Definition mountSitesPage : SitesPage :=
  {| siteModal := mkModal false None;
     tankModalFor := None;
     formSite := mkSiteForm "" "" "";
     collapsed := [];
     newTank := mkTankForm Regular 0 |}.

Definition setSiteModal (m : ModalState) (pg : SitesPage) : SitesPage :=
  {| siteModal := m; tankModalFor := tankModalFor pg; formSite := formSite pg;
     collapsed := collapsed pg; newTank := newTank pg |}.

Definition setTankModalFor (v : option Z) (pg : SitesPage) : SitesPage :=
  {| siteModal := siteModal pg; tankModalFor := v; formSite := formSite pg;
     collapsed := collapsed pg; newTank := newTank pg |}.

Definition setFormSite (f : SiteForm -> SiteForm) (pg : SitesPage) : SitesPage :=
  {| siteModal := siteModal pg; tankModalFor := tankModalFor pg;
     formSite := f (formSite pg);
     collapsed := collapsed pg; newTank := newTank pg |}.

Definition setCollapsed (f : IdSet -> IdSet) (pg : SitesPage) : SitesPage :=
  {| siteModal := siteModal pg; tankModalFor := tankModalFor pg;
     formSite := formSite pg;
     collapsed := f (collapsed pg); newTank := newTank pg |}.

Definition setNewTank (f : TankForm -> TankForm) (pg : SitesPage) : SitesPage :=
  {| siteModal := siteModal pg; tankModalFor := tankModalFor pg;
     formSite := formSite pg;
     collapsed := collapsed pg; newTank := f (newTank pg) |}.

Definition openAddSite (pg : SitesPage) : SitesPage :=
  setSiteModal (mkModal true None)
    (setFormSite (fun _ => mkSiteForm "" "" "") pg).

(** [site.phone || ""] is [site.phone] for a string. *)
Definition openEditSite (site : Site) (pg : SitesPage) : SitesPage :=
  setSiteModal (mkModal true (Some (site_id site)))
    (setFormSite
       (fun _ => mkSiteForm (site_name site) (site_address site) (site_phone site))
       pg).

(** The form as the patch of [updateSite]: it has the three keys of the
    form and no other. *)
Definition patch_of_form (f : SiteForm) : SitePatch :=
  {| sp_id := None;
     sp_name := Some (f_name f);
     sp_address := Some (f_address f);
     sp_phone := Some (f_phone f);
     sp_tanks := None |}.

(** [{ id: Date.now(), ...formSite, tanks: [] }] *)
Definition site_of_form (now : Z) (f : SiteForm) : Site :=
  {| site_id := now;
     site_name := f_name f;
     site_address := f_address f;
     site_phone := f_phone f;
     site_tanks := [] |}.

Definition handleSaveSite (now : Z) (st : Store) (pg : SitesPage)
  : Store * SitesPage * list Effect :=
  if negb (truthy_str (f_name (formSite pg)))
  then (st, pg, [ToastError "Site name?"])
  else
    let closed := setSiteModal (mkModal false None) pg in
    match truthy_num (m_editId (siteModal pg)) with
    | Some editId =>
        (updateSite editId (patch_of_form (formSite pg)) st, closed,
         [ToastSuccess "Site updated"])
    | None =>
        (addSite (site_of_form now (formSite pg)) st, closed,
         [ToastSuccess "Site added"])
    end.

(** [{ id: Date.now(), ...newTank }]; with [tankModalFor] at [null] no
    site has the id and the sites are mapped to themselves. *)
Definition handleAddTank (now : Z) (st : Store) (pg : SitesPage)
  : Store * SitesPage * list Effect :=
  if nt_capacity (newTank pg) =? 0
  then (st, pg, [ToastError "Capacity?"])
  else
    let tank := mkTank now (nt_grade (newTank pg)) (nt_capacity (newTank pg)) in
    (match tankModalFor pg with
     | Some siteId => addTankToSite siteId tank st
     | None => st
     end,
     setTankModalFor None (setNewTank (fun _ => mkTankForm Regular 0) pg),
     [ToastSuccess "Tank added"]).

(** [const c = new Set(prev); c.has(id) ? c.delete(id) : c.add(id)] *)
Definition toggleCollapse (id : Z) (pg : SitesPage) : SitesPage :=
  setCollapsed
    (fun prev => if set_has prev id then set_delete prev id else set_add prev id)
    pg.

(** ** The drivers section ([DriversSection]) *)

(** [{ name, phone }] *)
Record DriverForm : Set := mkDriverForm {
  df_name : string;
  df_phone : string
}.

Record DriversSection : Set := mkDriversSection {
  modal : ModalState;
  form : DriverForm
}.

Definition mountDriversSection : DriversSection :=
  {| modal := mkModal false None; form := mkDriverForm "" "" |}.

Definition setModal (m : ModalState) (ds : DriversSection) : DriversSection :=
  {| modal := m; form := form ds |}.

Definition setForm (f : DriverForm -> DriverForm) (ds : DriversSection)
  : DriversSection :=
  {| modal := modal ds; form := f (form ds) |}.

Definition openAdd (ds : DriversSection) : DriversSection :=
  setModal (mkModal true None) (setForm (fun _ => mkDriverForm "" "") ds).

Definition openEdit (d : Driver) (ds : DriversSection) : DriversSection :=
  setModal (mkModal true (Some (driver_id d)))
    (setForm (fun _ => mkDriverForm (driver_name d) (driver_phone d)) ds).

Definition patch_of_driver_form (f : DriverForm) : DriverPatch :=
  {| dp_id := None; dp_name := Some (df_name f); dp_phone := Some (df_phone f) |}.

(** [{ id: Date.now(), ...form }] *)
Definition driver_of_form (now : Z) (f : DriverForm) : Driver :=
  {| driver_id := now; driver_name := df_name f; driver_phone := df_phone f |}.

Definition handleSave (now : Z) (st : Store) (ds : DriversSection)
  : Store * DriversSection * list Effect :=
  if negb (truthy_str (df_name (form ds)))
  then (st, ds, [ToastError "Name?"])
  else
    let closed := setModal (mkModal false None) ds in
    match truthy_num (m_editId (modal ds)) with
    | Some editId =>
        (updateDriver editId (patch_of_driver_form (form ds)) st, closed,
         [ToastSuccess "Driver updated"])
    | None =>
        (addDriver (driver_of_form now (form ds)) st, closed,
         [ToastSuccess "Driver added"])
    end.

(** ** The planner's notification and its list of planned loads *)

(** What [notifyDriver] does to the world outside the store. *)
Inductive NotifyEffect : Set :=
| Share (title text : string)
| ClipboardWrite (text : string)
| Toast (msg : string)
| ConsoleWarn.

(** [navigator]: [share] is absent on some browsers; a call of [share] or
    of [clipboard.writeText] settles as fulfilled ([true]) or rejected. *)
Record Navigator : Type := mkNavigator {
  nav_share : option (string -> string -> bool);
  nav_writeText : string -> bool
}.

(** [`${i.qty} gal ${i.grade}`]: the quantity, a no-break space,
    [gal], a space and the grade. *)
Definition itemText (i : LoadItem) : string :=
  (string_of_Z (item_qty i) ++ " gal " ++ grade_name (item_grade i))%string.

(** [`Load for ${siteName}: ${qtyStr}`] *)
Definition notifyMessage (siteName : string) (load : Load) : string :=
  ("Load for " ++ siteName ++ ": "
   ++ String.concat ", " (map itemText (load_items load)))%string.

(** The body runs in a promise: a throw rejects it.  The [driver]
    argument is not read. *)
Definition notifyDriver (nav : Navigator) (sites : list Site) (load : Load)
    (driver : option Driver) : Completion (list NotifyEffect) :=
  match findSite sites (load_siteId load) with
  | None => Throw TypeError
  | Some site =>
      let message := notifyMessage (site_name site) load in
      match nav_share nav with
      | Some share =>
          if share "Load Assignment" message
          then Return [Share "Load Assignment" message]
          else Return [Share "Load Assignment" message; ConsoleWarn]
      | None =>
          if nav_writeText nav message
          then Return [ClipboardWrite message;
                       Toast "Copied assignment to clipboard"]
          else Return [ClipboardWrite message; ConsoleWarn]
      end
  end.

(** The rows of the "Planned Loads" list: creation time and site name;
    reading [name] off a site that [find] did not find throws. *)
Fixpoint loadRows (sites : list Site) (ls : list Load)
  : Completion (list (Z * string)) :=
  match ls with
  | [] => Return []
  | l :: rest =>
      match findSite sites (load_siteId l) with
      | None => Throw TypeError
      | Some s =>
          match loadRows sites rest with
          | Return rows => Return ((load_createdAt l, site_name s) :: rows)
          | Throw e => Throw e
          end
      end
  end.

(** [loads.length > 0 && loads.filter(status === "Planned").map(...)] *)
Definition plannedLoads (sites : list Site) (loads : list Load)
  : Completion (list (Z * string)) :=
  if (0 <? List.length loads)%nat
  then loadRows sites (filter (fun l => status_is (load_status l) Planned) loads)
  else Return [].

(** ** The proof-of-delivery page ([PodPage]) *)

Inductive Tab : Set := TabPending | TabHistory.

(** [file] is the object URL of the attached image. *)
Record PodPage : Set := mkPodPage {
  pod_tab : Tab;
  pod_file : option string
}.

Definition mountPodPage : PodPage :=
  {| pod_tab := TabPending; pod_file := None |}.

Definition setTab (t : Tab) (pod : PodPage) : PodPage :=
  {| pod_tab := t; pod_file := pod_file pod |}.

Definition setFile (f : option string) (pod : PodPage) : PodPage :=
  {| pod_tab := pod_tab pod; pod_file := f |}.

Definition filteredLoads (tab : Tab) (loads : list Load) : list Load :=
  filter (fun l =>
            match tab with
            | TabPending => status_is (load_status l) Planned
            | TabHistory => status_is (load_status l) Delivered
            end) loads.

(** The rows of the page: the site name, absent when the site is not
    found ([?.name]), and the creation time. *)
Definition podRows (sites : list Site) (tab : Tab) (loads : list Load)
  : list (option string * Z) :=
  map (fun l => (option_map site_name (findSite sites (load_siteId l)),
                 load_createdAt l))
      (filteredLoads tab loads).

(** [file] is [e.target.files[0]], as its object URL. *)
Definition handleUpload (l : Load) (file : option string) (now : Z)
    (st : Store) (pod : PodPage) : Store * PodPage * list Effect :=
  match file with
  | Some f =>
      (markLoadDelivered now (load_id l) st, setFile (Some f) pod,
       [ToastSuccess "POD saved – load marked delivered"])
  | None => (st, pod, [])
  end.

(** ** The markers of the live map *)

(** [[-84.51 + idx * 0.2, 39.10 + idx * 0.2]] *)
Definition markerPosition (idx : nat) : LngLat :=
  ((Fin (-84.51) + Fin (INR idx) * Fin 0.2)%num,
   (Fin 39.10 + Fin (INR idx) * Fin 0.2)%num).

(** [drivers.map((d, idx) => marker at markerPosition idx)] *)
Definition driverMarkers (drivers : list Driver) : list LngLat :=
  map markerPosition (seq 0 (List.length drivers)).

(** How the [try] block of the effect of [MapPage] ends: the constructor
    of the map throws; the map is created and a later call throws
    ([addControl], or a marker inside [drivers.map], before
    [driverMarkers.current] is assigned); or nothing throws. *)
Inductive MountOutcome : Set := MapThrows | MarkersThrow | Mounted.

(** The two refs, [mapInstance] and [driverMarkers], after the effect: the
    catch leaves a ref that was not assigned as it was, unset or empty. *)
Definition mountMap (o : MountOutcome) (st : Store) : bool * list LngLat :=
  match o with
  | MapThrows => (false, [])
  | MarkersThrow => (true, [])
  | Mounted => (true, driverMarkers (drivers st))
  end.

(** ** The pages as a state machine

    One session of the application, from its load to the next reload: the
    store lives as long as the session, the state of a page as long as the
    page is shown.  An action is a user event on an element that the page
    renders; a row or an option is named by its position in the list that
    renders it.  Elements of a modal exist while the modal is open.  An
    error thrown while rendering takes the whole application down. *)

Inductive Route : Set := ToSites | ToPlanner | ToMap | ToPod.

Inductive Page : Set :=
| OnSites (pg : SitesPage)
| OnPlanner (p : Planner) (ds : DriversSection)
| OnMap
| OnPod (pod : PodPage)
| Crashed.

Record UI : Set := mkUI {
  ui_store : Store;
  ui_page : Page
}.

(** The planner page once rendered with the given state. *)
Definition showPlanner (st : Store) (p : Planner) (ds : DriversSection) : Page :=
  match plannedLoads (sites st) (loads st) with
  | Return _ => OnPlanner p ds
  | Throw _ => Crashed
  end.

Definition mount (r : Route) (st : Store) : Page :=
  match r with
  | ToSites => OnSites mountSitesPage
  | ToPlanner => showPlanner st (mountPlanner st) mountDriversSection
  | ToMap => OnMap
  | ToPod => OnPod mountPodPage
  end.

Inductive Action : Set :=
| Go (r : Route)
| ClickAddSite
| ClickEditSite (row : nat)
| ClickDeleteSite (row : nat)
| ClickTank (row : nat)
| ClickSiteName (row : nat)
| TypeSiteName (s : string)
| TypeSiteAddress (s : string)
| TypeSitePhone (s : string)
| ClickSaveSite (now : Z)
| CloseSiteModal
| PickTankGrade (g : Grade)
| TypeTankCapacity (v : Z)
| ClickSaveTank (now : Z)
| CloseTankModal
| PickSite (row : nat)
| PickDriver (row : nat)
| PickGrade (g : Grade)
| TypeQty (v : Z)
| ClickAdd
| ClickCreateLoad (now stamp : Z)
| ClickAddDriver
| ClickEditDriver (row : nat)
| ClickDeleteDriver (row : nat)
| TypeDriverName (s : string)
| TypeDriverPhone (s : string)
| ClickSaveDriver (now : Z)
| CloseDriverModal
| PickTab (t : Tab)
| AttachPod (row : nat) (file : option string) (now : Z).

Definition stepSites (a : Action) (st : Store) (pg : SitesPage) : UI :=
  let stay := mkUI st (OnSites pg) in
  let row_site (row : nat) (k : Site -> UI) : UI :=
    match nth_error (sites st) row with Some site => k site | None => stay end in
  let in_site_modal (k : UI) : UI :=
    if m_open (siteModal pg) then k else stay in
  let in_tank_modal (k : UI) : UI :=
    match tankModalFor pg with Some _ => k | None => stay end in
  match a with
  | Go ToSites => stay
  | Go r => mkUI st (mount r st)
  | ClickAddSite => mkUI st (OnSites (openAddSite pg))
  | ClickEditSite row =>
      row_site row (fun site => mkUI st (OnSites (openEditSite site pg)))
  | ClickDeleteSite row =>
      row_site row (fun site => mkUI (deleteSite (site_id site) st) (OnSites pg))
  | ClickTank row =>
      row_site row (fun site =>
        mkUI st (OnSites (setTankModalFor (Some (site_id site)) pg)))
  | ClickSiteName row =>
      row_site row (fun site => mkUI st (OnSites (toggleCollapse (site_id site) pg)))
  | TypeSiteName s =>
      in_site_modal (mkUI st (OnSites (setFormSite
        (fun f => mkSiteForm s (f_address f) (f_phone f)) pg)))
  | TypeSiteAddress s =>
      in_site_modal (mkUI st (OnSites (setFormSite
        (fun f => mkSiteForm (f_name f) s (f_phone f)) pg)))
  | TypeSitePhone s =>
      in_site_modal (mkUI st (OnSites (setFormSite
        (fun f => mkSiteForm (f_name f) (f_address f) s) pg)))
  | ClickSaveSite now =>
      in_site_modal
        (let '(st', pg', _) := handleSaveSite now st pg in mkUI st' (OnSites pg'))
  | CloseSiteModal =>
      in_site_modal (mkUI st (OnSites (setSiteModal (mkModal false None) pg)))
  | PickTankGrade g =>
      in_tank_modal (mkUI st (OnSites (setNewTank
        (fun t => mkTankForm g (nt_capacity t)) pg)))
  | TypeTankCapacity v =>
      in_tank_modal (mkUI st (OnSites (setNewTank
        (fun t => mkTankForm (nt_grade t) v) pg)))
  | ClickSaveTank now =>
      in_tank_modal
        (let '(st', pg', _) := handleAddTank now st pg in mkUI st' (OnSites pg'))
  | CloseTankModal =>
      in_tank_modal (mkUI st (OnSites (setTankModalFor None pg)))
  | _ => stay
  end.

Definition stepPlanner (a : Action) (st : Store) (p : Planner)
    (ds : DriversSection) : UI :=
  let stay := mkUI st (OnPlanner p ds) in
  let show (st' : Store) (p' : Planner) (ds' : DriversSection) : UI :=
    mkUI st' (showPlanner st' p' ds') in
  let in_modal (k : UI) : UI := if m_open (modal ds) then k else stay in
  match a with
  | Go ToPlanner => stay
  | Go r => mkUI st (mount r st)
  | PickSite row =>
      match nth_error (sites st) row with
      | Some s => show st (setSiteId (Selected (site_id s)) p) ds
      | None => stay
      end
  | PickDriver row =>
      match nth_error (drivers st) row with
      | Some d => show st (setDriverId (Selected (driver_id d)) p) ds
      | None => stay
      end
  | PickGrade g => show st (setGrade g p) ds
  | TypeQty v => show st (setQty v p) ds
  | ClickAdd => show st (fst (addItem p)) ds
  | ClickCreateLoad now stamp =>
      let a' := fst (handleCreateLoad now stamp (mkApp st p)) in
      show (store a') (planner a') ds
  | ClickAddDriver => show st p (openAdd ds)
  | ClickEditDriver row =>
      match nth_error (drivers st) row with
      | Some d => show st p (openEdit d ds)
      | None => stay
      end
  | ClickDeleteDriver row =>
      match nth_error (drivers st) row with
      | Some d => show (deleteDriver (driver_id d) st) p ds
      | None => stay
      end
  | TypeDriverName s =>
      in_modal (show st p (setForm (fun f => mkDriverForm s (df_phone f)) ds))
  | TypeDriverPhone s =>
      in_modal (show st p (setForm (fun f => mkDriverForm (df_name f) s) ds))
  | ClickSaveDriver now =>
      in_modal (let '(st', ds', _) := handleSave now st ds in show st' p ds')
  | CloseDriverModal =>
      in_modal (show st p (setModal (mkModal false None) ds))
  | _ => stay
  end.

Definition stepPod (a : Action) (st : Store) (pod : PodPage) : UI :=
  let stay := mkUI st (OnPod pod) in
  match a with
  | Go ToPod => stay
  | Go r => mkUI st (mount r st)
  | PickTab t => mkUI st (OnPod (setTab t pod))
  | AttachPod row file now =>
      match pod_tab pod with
      | TabPending =>
          match nth_error (filteredLoads TabPending (loads st)) row with
          | Some l =>
              let '(st', pod', _) := handleUpload l file now st pod in
              mkUI st' (OnPod pod')
          | None => stay
          end
      | TabHistory => stay
      end
  | _ => stay
  end.

Definition step (a : Action) (u : UI) : UI :=
  match ui_page u with
  | OnSites pg => stepSites a (ui_store u) pg
  | OnPlanner p ds => stepPlanner a (ui_store u) p ds
  | OnMap =>
      match a with
      | Go ToMap => u
      | Go r => mkUI (ui_store u) (mount r (ui_store u))
      | _ => u
      end
  | OnPod pod => stepPod a (ui_store u) pod
  | Crashed => u
  end.

Definition initialUI : UI :=
  {| ui_store := initialStore; ui_page := mount ToSites initialStore |}.

Definition runUI (acts : list Action) (u : UI) : UI :=
  fold_left (fun acc a => step a acc) acts u.

(** ** Predicates of the statements *)

(** [l'] is [l] but for its delivery: every field set at creation is the
    same, and a delivered load is still delivered. *)
Definition load_evolved (l l' : Load) : Prop :=
  load_id l' = load_id l /\
  load_siteId l' = load_siteId l /\
  load_driverId l' = load_driverId l /\
  load_items l' = load_items l /\
  load_createdAt l' = load_createdAt l /\
  (load_status l = Delivered -> load_status l' = Delivered).

(** [ls'] is [ls], load by load and in the same order, followed by the
    loads created since. *)
Definition loads_grown (ls ls' : list Load) : Prop :=
  exists old' new, ls' = old' ++ new /\ Forall2 load_evolved ls old'.

(** Some planned load names a site that the store does not hold. *)
Definition dangling_planned (st : Store) : Prop :=
  exists l, In l (loads st) /\ load_status l = Planned /\
            findSite (sites st) (load_siteId l) = None.

(** What the guards of the handlers ask of an item and of a load: a
    quantity that is not 0; at least one item, a site and a driver that
    are set, a total within the ceiling, and a delivery time exactly when
    the load is Delivered. *)
Definition item_ok (i : LoadItem) : Prop := item_qty i <> 0.

Definition load_ok (l : Load) : Prop :=
  load_items l <> [] /\
  Forall item_ok (load_items l) /\
  totalQty (load_items l) <= maxGal /\
  truthy (load_siteId l) = true /\
  truthy (load_driverId l) = true /\
  (load_status l = Delivered <-> load_deliveredAt l <> None).

Definition site_ok (s : Site) : Prop :=
  site_name s <> "" /\ Forall (fun t => tank_capacity t <> 0) (site_tanks s).

Definition store_ok (st : Store) : Prop :=
  Forall site_ok (sites st) /\
  Forall (fun d => driver_name d <> "") (drivers st) /\
  Forall load_ok (loads st).

(** The planner's site cell is unset or holds the id of a site of the
    store. *)
Definition site_selected (st : Store) (p : Planner) : Prop :=
  p_siteId p = NoSelection \/
  exists s, In s (sites st) /\ p_siteId p = Selected (site_id s).

Definition planner_ok (st : Store) (p : Planner) : Prop :=
  Forall item_ok (p_items p) /\
  totalQty (p_items p) <= maxGal /\
  site_selected st p /\
  ~ dangling_planned st.

Definition ui_ok (u : UI) : Prop :=
  store_ok (ui_store u) /\
  match ui_page u with
  | OnPlanner p _ => planner_ok (ui_store u) p
  | _ => True
  end.

(** The reading of [Date.now()] that an action takes is not the id of a
    load of the store. *)
Definition clock_fresh (u : UI) (a : Action) : Prop :=
  match a with
  | ClickCreateLoad now _ => ~ In now (map load_id (loads (ui_store u)))
  | _ => True
  end.

Fixpoint clock_fresh_run (acts : list Action) (u : UI) : Prop :=
  match acts with
  | [] => True
  | a :: rest => clock_fresh u a /\ clock_fresh_run rest (step a u)
  end.

(** ** Quantities as doubles

    A quantity is the number that [+e.target.value] reads off the number
    input: a double.  The integer model above reads the same code on
    integers that double arithmetic adds exactly; this section reads it on
    every double.  A double is a [spec_float] of binary64 (53 bits of
    precision, exponents below 1024), with the round-to-nearest-even
    addition and the comparison of the standard specification. *)

Definition double : Set := SpecFloat.spec_float.

(** The double of an integer literal or of an integer typed into the
    input: the integer itself when 53 bits hold it, the nearest double
    otherwise. *)
Definition D_of_Z (z : Z) : double :=
  SpecFloat.binary_normalize 53 1024 z 0 false.

(** The integer that a double is, when it is one. *)
Definition Z_of_double (x : double) : option Z :=
  match x with
  | SpecFloat.S754_zero _ => Some 0
  | SpecFloat.S754_finite s m e =>
      if 0 <=? e then Some (SpecFloat.cond_Zopp s (Zpos m * 2 ^ e))
      else if (Zpos m) mod 2 ^ (- e) =? 0
           then Some (SpecFloat.cond_Zopp s (Zpos m / 2 ^ (- e)))
           else None
  | _ => None
  end.

(** [!x] for a number: 0, -0 and NaN are falsy. *)
Definition falsy (x : double) : bool :=
  match x with
  | SpecFloat.S754_zero _ | SpecFloat.S754_nan => true
  | _ => false
  end.

(** Integers that a double holds exactly whatever their value: fewer than
    54 bits. *)
Definition safe (z : Z) : Prop := Z.abs z < 2 ^ 53.

(** Every integer of the list and every sum that a left-to-right addition
    from [acc] goes through is safe. *)
Fixpoint running_safe (acc : Z) (zs : list Z) : Prop :=
  match zs with
  | [] => True
  | z :: rest => safe z /\ safe (acc + z) /\ running_safe (acc + z) rest
  end.

Definition sumZ (zs : list Z) : Z := fold_right Z.add 0 zs.

(** The double of a non-zero integer of at most 53 bits, by sign and
    magnitude: the mantissa is the magnitude shifted to 53 bits. *)
Definition canon (s : bool) (v : positive) : double :=
  SpecFloat.S754_finite s
    (Z.to_pos (Zpos v * 2 ^ (53 - Zpos (Pos.size v))))
    (Zpos (Pos.size v) - 53).

(** The sites and drivers that the store starts with. *)
Definition initialSites : list Site := sites initialStore.
Definition initialDrivers : list Driver := drivers initialStore.

Module Float64.

(** [{ grade, qty }] *)
Record LoadItem : Set := mkItem {
  item_grade : Grade;
  item_qty : double
}.

Record Load : Set := mkLoad {
  load_id : Z;
  load_siteId : Selection;
  load_driverId : Selection;
  load_items : list LoadItem;
  load_status : Status;
  load_createdAt : Z;
  load_deliveredAt : option Z
}.

Record Store : Set := mkStore {
  sites : list Site;
  drivers : list Driver;
  loads : list Load
}.

Definition initialStore : Store :=
  {| sites := initialSites; drivers := initialDrivers; loads := [] |}.

Definition setSites (f : list Site -> list Site) (st : Store) : Store :=
  {| sites := f (sites st); drivers := drivers st; loads := loads st |}.

Definition setDrivers (f : list Driver -> list Driver) (st : Store) : Store :=
  {| sites := sites st; drivers := f (drivers st); loads := loads st |}.

Definition setLoads (f : list Load -> list Load) (st : Store) : Store :=
  {| sites := sites st; drivers := drivers st; loads := f (loads st) |}.

Definition addSite (site : Site) : Store -> Store :=
  setSites (fun s => s ++ [site]).

Definition updateSite (id : Z) (patch : SitePatch) : Store -> Store :=
  setSites (fun prev =>
    map (fun s => if site_id s =? id then spread_site s patch else s) prev).

Definition deleteSite (id : Z) : Store -> Store :=
  setSites (fun prev => filter (fun s => negb (site_id s =? id)) prev).

Definition addTankToSite (siteId : Z) (tank : Tank) : Store -> Store :=
  setSites (fun prev =>
    map (fun s =>
           if site_id s =? siteId
           then {| site_id := site_id s;
                   site_name := site_name s;
                   site_address := site_address s;
                   site_phone := site_phone s;
                   site_tanks := site_tanks s ++ [tank] |}
           else s) prev).

Definition addDriver (d : Driver) : Store -> Store :=
  setDrivers (fun ds => ds ++ [d]).

Definition updateDriver (id : Z) (patch : DriverPatch) : Store -> Store :=
  setDrivers (fun prev =>
    map (fun d => if driver_id d =? id then spread_driver d patch else d) prev).

Definition deleteDriver (id : Z) : Store -> Store :=
  setDrivers (fun prev => filter (fun d => negb (driver_id d =? id)) prev).

Definition addLoad (l : Load) : Store -> Store :=
  setLoads (fun ls => ls ++ [l]).

Definition deliver (now : Z) (l : Load) : Load :=
  {| load_id := load_id l;
     load_siteId := load_siteId l;
     load_driverId := load_driverId l;
     load_items := load_items l;
     load_status := Delivered;
     load_createdAt := load_createdAt l;
     load_deliveredAt := Some now |}.

Definition markLoadDelivered (now : Z) (id : Z) : Store -> Store :=
  setLoads (fun prev =>
    map (fun l => if load_id l =? id then deliver now l else l) prev).

Inductive Effect : Set :=
| ToastError (msg : string)
| ToastSuccess (msg : string)
| NotifyDriver (load : Load) (driver : option Driver).

Record Planner : Set := mkPlanner {
  p_siteId : Selection;
  p_driverId : Selection;
  p_items : list LoadItem;
  p_grade : Grade;
  p_qty : double
}.

Definition mountPlanner (st : Store) : Planner :=
  {| p_siteId := or_empty (option_map site_id (nth_error (sites st) 0));
     p_driverId := or_empty (option_map driver_id (nth_error (drivers st) 0));
     p_items := [];
     p_grade := Regular;
     p_qty := SpecFloat.S754_zero false |}.

Definition setSiteId (s : Selection) (p : Planner) : Planner :=
  {| p_siteId := s; p_driverId := p_driverId p; p_items := p_items p;
     p_grade := p_grade p; p_qty := p_qty p |}.

Definition setDriverId (s : Selection) (p : Planner) : Planner :=
  {| p_siteId := p_siteId p; p_driverId := s; p_items := p_items p;
     p_grade := p_grade p; p_qty := p_qty p |}.

Definition setItems (f : list LoadItem -> list LoadItem) (p : Planner)
  : Planner :=
  {| p_siteId := p_siteId p; p_driverId := p_driverId p;
     p_items := f (p_items p);
     p_grade := p_grade p; p_qty := p_qty p |}.

Definition setGrade (g : Grade) (p : Planner) : Planner :=
  {| p_siteId := p_siteId p; p_driverId := p_driverId p; p_items := p_items p;
     p_grade := g; p_qty := p_qty p |}.

Definition setQty (q : double) (p : Planner) : Planner :=
  {| p_siteId := p_siteId p; p_driverId := p_driverId p; p_items := p_items p;
     p_grade := p_grade p; p_qty := q |}.

(** [items.reduce((sum, i) => sum + i.qty, 0)] *)
Definition totalQty (items : list LoadItem) : double :=
  fold_left (fun sum i => SpecFloat.SFadd 53 1024 sum (item_qty i)) items
            (SpecFloat.S754_zero false).

Definition maxGal : double := D_of_Z 8800.

(** [x > y] *)
Definition gt (x y : double) : bool := SpecFloat.SFltb y x.

Definition addItem (p : Planner) : Planner * list Effect :=
  if falsy (p_qty p) then (p, [ToastError "Qty?"])
  else if gt (SpecFloat.SFadd 53 1024 (totalQty (p_items p)) (p_qty p)) maxGal
       then (p, [ToastError "Exceeds 8,800 gal"])
       else (setQty (SpecFloat.S754_zero false)
               (setItems (fun it => it ++ [mkItem (p_grade p) (p_qty p)]) p),
             []).

Definition appended (p : Planner) : Planner :=
  {| p_siteId := p_siteId p;
     p_driverId := p_driverId p;
     p_items := p_items p ++ [mkItem (p_grade p) (p_qty p)];
     p_grade := p_grade p;
     p_qty := SpecFloat.S754_zero false |}.

Definition accepted (p : Planner) : Prop :=
  addItem p = (appended p, []).

Definition rejected (p : Planner) (msg : string) : Prop :=
  addItem p = (p, [ToastError msg]).

Record App : Set := mkApp {
  store : Store;
  planner : Planner
}.

Definition findDriver (ds : list Driver) (driverId : Selection)
  : option Driver :=
  find (fun d => sel_is driverId (driver_id d)) ds.

Definition handleCreateLoad (now stamp : Z) (a : App) : App * list Effect :=
  let p := planner a in
  if negb (truthy (p_siteId p)) || negb (truthy (p_driverId p))
     || (List.length (p_items p) =? 0)%nat
  then (a, [ToastError "Fill all fields"])
  else
    let load :=
      {| load_id := now;
         load_siteId := p_siteId p;
         load_driverId := p_driverId p;
         load_items := p_items p;
         load_status := Planned;
         load_createdAt := stamp;
         load_deliveredAt := None |} in
    ({| store := addLoad load (store a);
        planner := setItems (fun _ => []) p |},
     [ToastSuccess "Load created";
      NotifyDriver load (findDriver (drivers (store a)) (p_driverId p))]).

Inductive Event : Set :=
| EvAddSite (site : Site)
| EvUpdateSite (id : Z) (patch : SitePatch)
| EvDeleteSite (id : Z)
| EvAddTankToSite (siteId : Z) (tank : Tank)
| EvAddDriver (d : Driver)
| EvUpdateDriver (id : Z) (patch : DriverPatch)
| EvDeleteDriver (id : Z)
| EvMarkLoadDelivered (now : Z) (id : Z)
| EvMountPlanner
| EvSetSiteId (v : Z)
| EvSetDriverId (v : Z)
| EvSetGrade (g : Grade)
| EvSetQty (v : double)
| EvAddItem
| EvCreateLoad (now stamp : Z).

Definition onStore (f : Store -> Store) (a : App) : App :=
  {| store := f (store a); planner := planner a |}.

Definition onPlanner (f : Planner -> Planner) (a : App) : App :=
  {| store := store a; planner := f (planner a) |}.

Definition dispatch (e : Event) (a : App) : App :=
  match e with
  | EvAddSite site => onStore (addSite site) a
  | EvUpdateSite id patch => onStore (updateSite id patch) a
  | EvDeleteSite id => onStore (deleteSite id) a
  | EvAddTankToSite siteId tank => onStore (addTankToSite siteId tank) a
  | EvAddDriver d => onStore (addDriver d) a
  | EvUpdateDriver id patch => onStore (updateDriver id patch) a
  | EvDeleteDriver id => onStore (deleteDriver id) a
  | EvMarkLoadDelivered now id => onStore (markLoadDelivered now id) a
  | EvMountPlanner => onPlanner (fun _ => mountPlanner (store a)) a
  | EvSetSiteId v => onPlanner (setSiteId (Selected v)) a
  | EvSetDriverId v => onPlanner (setDriverId (Selected v)) a
  | EvSetGrade g => onPlanner (setGrade g) a
  | EvSetQty v => onPlanner (setQty v) a
  | EvAddItem => onPlanner (fun p => fst (addItem p)) a
  | EvCreateLoad now stamp => fst (handleCreateLoad now stamp a)
  end.

Definition initialApp : App :=
  {| store := initialStore; planner := mountPlanner initialStore |}.

Definition run (es : list Event) (a : App) : App :=
  fold_left (fun acc e => dispatch e acc) es a.

(** Each quantity in turn is typed into the quantity field and "Add"
    is clicked. *)
Definition addAll (qs : list double) (p : Planner) : Planner :=
  fold_left (fun acc q => fst (addItem (setQty q acc))) qs p.

(** The total that the code computes for the items is not greater than
    the ceiling. *)
Definition within_capacity (items : list LoadItem) : Prop :=
  gt (totalQty items) maxGal = false.

Definition capacity_invariant (a : App) : Prop :=
  within_capacity (p_items (planner a)) /\
  Forall (fun l => within_capacity (load_items l)) (loads (store a)).

(** The items hold the doubles of the integers [zs]. *)
Definition quantities (items : list LoadItem) (zs : list Z) : Prop :=
  map item_qty items = map D_of_Z zs.

End Float64.

(** ** The integer reading and the doubles

    An item, a planner and an effect of the integer reading, with the
    doubles of its integers. *)

Definition item_of_Z (i : LoadItem) : Float64.LoadItem :=
  Float64.mkItem (item_grade i) (D_of_Z (item_qty i)).

Definition planner_of_Z (p : Planner) : Float64.Planner :=
  {| Float64.p_siteId := p_siteId p;
     Float64.p_driverId := p_driverId p;
     Float64.p_items := map item_of_Z (p_items p);
     Float64.p_grade := p_grade p;
     Float64.p_qty := D_of_Z (p_qty p) |}.

Definition load_of_Z (l : Load) : Float64.Load :=
  {| Float64.load_id := load_id l;
     Float64.load_siteId := load_siteId l;
     Float64.load_driverId := load_driverId l;
     Float64.load_items := map item_of_Z (load_items l);
     Float64.load_status := load_status l;
     Float64.load_createdAt := load_createdAt l;
     Float64.load_deliveredAt := load_deliveredAt l |}.

Definition effect_of_Z (e : Effect) : Float64.Effect :=
  match e with
  | ToastError msg => Float64.ToastError msg
  | ToastSuccess msg => Float64.ToastSuccess msg
  | NotifyDriver load driver => Float64.NotifyDriver (load_of_Z load) driver
  end.

(** * Properties of the planner *)

Section Planner_facts.

Lemma fold_qty_shift (items : list LoadItem) (acc : Z) :
  fold_left (fun sum i => sum + item_qty i) items acc = acc + totalQty items.
Proof.
  unfold totalQty. revert acc.
  induction items as [| i items IH]; intros acc; simpl.
  - lia.
  - rewrite IH, (IH (item_qty i)). lia.
Qed.

Lemma totalQty_snoc (items : list LoadItem) (i : LoadItem) :
  totalQty (items ++ [i]) = totalQty items + item_qty i.
Proof.
  unfold totalQty at 1. rewrite fold_left_app. simpl.
  now rewrite fold_qty_shift.
Qed.




Lemma accepted_not_rejected (p : Planner) (msg : string) :
  accepted p -> rejected p msg -> False.
Proof.
  unfold accepted, rejected. intros Ha Hr. rewrite Ha in Hr. discriminate.
Qed.

End Planner_facts.

(** * Doubles that hold integers

    On integers of fewer than 54 bits the addition and the comparison of
    doubles are those of the integers. *)

Section Double_facts.

Import SpecFloat.

Lemma digits2_size (m : positive) : digits2_pos m = Pos.size m.
Proof. induction m; simpl; congruence. Qed.

Lemma iter_pos_iter {A : Type} (f : A -> A) (p : positive) (x : A) :
  iter_pos f p x = Pos.iter f x p.
Proof.
  revert x. induction p as [p IH | p IH |]; intros x; simpl.
  - rewrite !IH. now rewrite <- !Pos.iter_swap.
  - now rewrite !IH.
  - reflexivity.
Qed.

Lemma iter_xO_value (m d : positive) :
  Zpos (Pos.iter xO m d) = Zpos m * 2 ^ Zpos d.
Proof.
  induction d as [| d IH] using Pos.peano_ind.
  - simpl. lia.
  - rewrite Pos.iter_succ, Pos2Z.inj_succ, Z.pow_succ_r by lia.
    rewrite Pos2Z.inj_xO, IH. lia.
Qed.

Lemma iter_xO_size (m d : positive) :
  Pos.size (Pos.iter xO m d) = (Pos.size m + d)%positive.
Proof.
  induction d as [| d IH] using Pos.peano_ind.
  - simpl. lia.
  - rewrite Pos.iter_succ. simpl. rewrite IH. lia.
Qed.

Lemma shr_exact (w d : positive) :
  iter_pos shr_1 d (Build_shr_record (Zpos (Pos.iter xO w d)) false false)
  = Build_shr_record (Zpos w) false false.
Proof.
  rewrite iter_pos_iter.
  induction d as [| d IH] using Pos.peano_ind.
  - reflexivity.
  - rewrite Pos.iter_succ_r. rewrite Pos.iter_succ. simpl. exact IH.
Qed.

Lemma size_log2 (p : positive) : Zpos (Pos.size p) = Z.log2 (Zpos p) + 1.
Proof. destruct p; simpl; lia. Qed.

Lemma size_scaled (v M : positive) (k : Z) :
  0 <= k -> Zpos M = Zpos v * 2 ^ k ->
  Zpos (Pos.size M) = Zpos (Pos.size v) + k.
Proof.
  intros Hk E. rewrite !size_log2, E, Z.log2_mul_pow2 by lia. lia.
Qed.

Lemma fexp_normal (e : Z) : -1021 <= e -> fexp 53 1024 e = e - 53.
Proof. intros H. unfold fexp, emin. lia. Qed.

(** A mantissa of exactly 53 bits is kept as it is. *)
Lemma round_aux_canon (s : bool) (w : positive) (e : Z) :
  Zpos (Pos.size w) = 53 -> -1074 <= e <= 971 ->
  binary_round_aux 53 1024 s (Zpos w) e loc_Exact = S754_finite s w e.
Proof.
  intros Hw He. unfold binary_round_aux, shr_fexp.
  cbn [Zdigits2 shr_record_of_loc]. rewrite digits2_size, Hw.
  replace (fexp 53 1024 (53 + e) - e) with 0 by (unfold fexp, emin; lia).
  cbn [shr shr_m loc_of_shr_record round_nearest_even Zdigits2].
  rewrite digits2_size, Hw.
  replace (fexp 53 1024 (53 + e) - e) with 0 by (unfold fexp, emin; lia).
  cbn [shr shr_m shr_record_of_loc].
  destruct (Z.leb_spec e (1024 - 53)); [reflexivity | lia].
Qed.

(** A mantissa that is one of 53 bits followed by zeros loses the zeros
    and nothing else. *)
Lemma round_aux_shift (s : bool) (w d : positive) (e : Z) :
  Zpos (Pos.size w) = 53 -> -1074 <= e + Zpos d <= 971 ->
  binary_round_aux 53 1024 s (Zpos (Pos.iter xO w d)) e loc_Exact
  = S754_finite s w (e + Zpos d).
Proof.
  intros Hw He. unfold binary_round_aux, shr_fexp at 1.
  cbn [Zdigits2 shr_record_of_loc]. rewrite digits2_size, iter_xO_size.
  rewrite Pos2Z.inj_add, Hw.
  replace (fexp 53 1024 (53 + Zpos d + e) - e) with (Zpos d)
    by (unfold fexp, emin; lia).
  cbn [shr]. rewrite shr_exact.
  cbn [shr_m loc_of_shr_record round_nearest_even].
  unfold shr_fexp. cbn [Zdigits2 shr_record_of_loc].
  rewrite digits2_size, Hw.
  replace (fexp 53 1024 (53 + (e + Zpos d)) - (e + Zpos d)) with 0
    by (unfold fexp, emin; lia).
  cbn [shr shr_m].
  destruct (Z.leb_spec (e + Zpos d) (1024 - 53)); [reflexivity | lia].
Qed.

(** Rounding [v * 2^k * 2^-k], for [v] of at most 53 bits, gives the
    double of [v]. *)
Lemma binary_round_exact (s : bool) (v M : positive) (k : Z) :
  0 <= k <= 1000 -> Zpos (Pos.size v) <= 53 -> Zpos M = Zpos v * 2 ^ k ->
  binary_round 53 1024 s M (- k) = canon s v.
Proof.
  intros Hk Hv HM. unfold binary_round, canon.
  pose proof (size_scaled v M k (proj1 Hk) HM) as HsM.
  assert (Hsv : 1 <= Zpos (Pos.size v)) by lia.
  rewrite digits2_size, HsM.
  replace (Zpos (Pos.size v) + k + - k) with (Zpos (Pos.size v)) by lia.
  rewrite fexp_normal by lia.
  set (sv := Zpos (Pos.size v)) in *.
  set (W := Z.to_pos (Zpos v * 2 ^ (53 - sv))).
  assert (HW : Zpos W = Zpos v * 2 ^ (53 - sv)).
  { unfold W. rewrite Z2Pos.id; [reflexivity |].
    apply Z.mul_pos_pos; [lia | apply Z.pow_pos_nonneg; lia]. }
  assert (HsW : Zpos (Pos.size W) = 53).
  { rewrite (size_scaled v W (53 - sv)); fold sv; lia. }
  unfold shl_align.
  destruct (sv - 53 - - k) as [| j | j] eqn:Ej.
  - assert (M = W) by (apply Pos2Z.inj; rewrite HM, HW; f_equal; f_equal; lia).
    subst M. replace (- k) with (sv - 53) by lia.
    apply round_aux_canon; [exact HsW | lia].
  - assert (M = Pos.iter xO W j).
    { apply Pos2Z.inj. rewrite iter_xO_value, HM, HW, <- Z.mul_assoc.
      rewrite <- Z.pow_add_r by lia. f_equal. f_equal. lia. }
    subst M. rewrite round_aux_shift; [f_equal; lia | exact HsW | lia].
  - assert (HMW : Pos.iter xO M j = W).
    { apply Pos2Z.inj. rewrite iter_xO_value, HM, HW, <- Z.mul_assoc.
      rewrite <- Z.pow_add_r by lia. f_equal. f_equal. lia. }
    rewrite HMW. apply round_aux_canon; [exact HsW | lia].
Qed.

Lemma safe_size (v : positive) : Zpos v < 2 ^ 53 <-> Zpos (Pos.size v) <= 53.
Proof.
  rewrite size_log2. split; intros H.
  - assert (Z.log2 (Zpos v) < 53) by (apply Z.log2_lt_pow2; lia). lia.
  - apply Z.log2_lt_pow2; lia.
Qed.

Lemma D_of_Z_pos (v : positive) :
  Zpos v < 2 ^ 53 -> D_of_Z (Zpos v) = canon false v.
Proof.
  intros H. unfold D_of_Z, binary_normalize. change 0 with (- 0).
  apply binary_round_exact; [lia | now apply safe_size | simpl; lia].
Qed.

Lemma D_of_Z_neg (v : positive) :
  Zpos v < 2 ^ 53 -> D_of_Z (Zneg v) = canon true v.
Proof.
  intros H. unfold D_of_Z, binary_normalize. change 0 with (- 0).
  apply binary_round_exact; [lia | now apply safe_size | simpl; lia].
Qed.

Lemma D_of_Z_nonzero (z : Z) :
  z <> 0 -> safe z -> D_of_Z z = canon (z <? 0) (Z.to_pos (Z.abs z)).
Proof.
  unfold safe. destruct z as [| v | v]; intros Hz Hs; [congruence | |];
    simpl in *.
  - now apply D_of_Z_pos.
  - now apply D_of_Z_neg.
Qed.

Lemma shl_align_value (m : positive) (e e' : Z) :
  e' <= e -> Zpos (fst (shl_align m e e')) = Zpos m * 2 ^ (e - e').
Proof.
  intros H. unfold shl_align.
  destruct (e' - e) as [| d | d] eqn:E; cbn [fst].
  - replace (e - e') with 0 by lia. now rewrite Z.pow_0_r, Z.mul_1_r.
  - lia.
  - rewrite iter_xO_value. f_equal. f_equal. lia.
Qed.

Lemma canon_mantissa (v : positive) :
  Zpos v < 2 ^ 53 ->
  Zpos (Z.to_pos (Zpos v * 2 ^ (53 - Zpos (Pos.size v))))
  = Zpos v * 2 ^ (53 - Zpos (Pos.size v)).
Proof.
  intros H. apply safe_size in H. rewrite Z2Pos.id; [reflexivity |].
  apply Z.mul_pos_pos; [lia | apply Z.pow_pos_nonneg; lia].
Qed.

Lemma aligned_value (s : bool) (v : positive) (ez : Z) :
  Zpos v < 2 ^ 53 -> ez <= Zpos (Pos.size v) - 53 ->
  cond_Zopp s
    (Zpos (fst (shl_align (Z.to_pos (Zpos v * 2 ^ (53 - Zpos (Pos.size v))))
                          (Zpos (Pos.size v) - 53) ez)))
  = cond_Zopp s (Zpos v) * 2 ^ (- ez).
Proof.
  intros Hv He. rewrite shl_align_value, canon_mantissa by assumption.
  apply safe_size in Hv.
  rewrite <- Z.mul_assoc, <- Z.pow_add_r by lia.
  replace (53 - Zpos (Pos.size v) + (Zpos (Pos.size v) - 53 - ez))
    with (- ez) by lia.
  destruct s; cbn [cond_Zopp]; [now rewrite Z.mul_opp_l | reflexivity].
Qed.

Lemma cond_Zopp_abs (z : Z) :
  cond_Zopp (z <? 0) (Zpos (Z.to_pos (Z.abs z))) = z \/ z = 0.
Proof. destruct z; simpl; auto. Qed.

(** The sum of two doubles that hold safe integers, when the sum of the
    integers is safe, is the double of that sum: nothing is rounded. *)
Lemma SFadd_exact (a b : Z) :
  safe a -> safe b -> safe (a + b) ->
  SFadd 53 1024 (D_of_Z a) (D_of_Z b) = D_of_Z (a + b).
Proof.
  intros Ha Hb Hab.
  destruct (Z.eq_dec a 0) as [-> | Na].
  { simpl. destruct (Z.eq_dec b 0) as [-> | Nb]; [reflexivity |].
    rewrite (D_of_Z_nonzero b Nb Hb). reflexivity. }
  destruct (Z.eq_dec b 0) as [-> | Nb].
  { rewrite Z.add_0_r, (D_of_Z_nonzero a Na Ha). reflexivity. }
  rewrite (D_of_Z_nonzero a Na Ha), (D_of_Z_nonzero b Nb Hb).
  set (va := Z.to_pos (Z.abs a)). set (vb := Z.to_pos (Z.abs b)).
  assert (Hva : Zpos va < 2 ^ 53) by (unfold va, safe in *; lia).
  assert (Hvb : Zpos vb < 2 ^ 53) by (unfold vb, safe in *; lia).
  assert (Ea : cond_Zopp (a <? 0) (Zpos va) = a)
    by (destruct (cond_Zopp_abs a); [assumption | contradiction]).
  assert (Eb : cond_Zopp (b <? 0) (Zpos vb) = b)
    by (destruct (cond_Zopp_abs b); [assumption | contradiction]).
  unfold canon. cbn [SFadd].
  set (ez := Z.min (Zpos (Pos.size va) - 53) (Zpos (Pos.size vb) - 53)).
  rewrite (aligned_value (a <? 0) va ez Hva) by (unfold ez; lia).
  rewrite (aligned_value (b <? 0) vb ez Hvb) by (unfold ez; lia).
  rewrite Ea, Eb, <- Z.mul_add_distr_r.
  assert (Hez : 0 <= - ez <= 1000).
  { apply safe_size in Hva, Hvb. unfold ez. lia. }
  assert (Hpow : 0 < 2 ^ (- ez)) by (apply Z.pow_pos_nonneg; lia).
  replace ez with (- - ez) at 2 by lia.
  destruct (a + b) as [| v | v] eqn:Es.
  - reflexivity.
  - assert (Hv : Zpos v < 2 ^ 53) by (unfold safe in Hab; lia).
    rewrite (D_of_Z_pos v Hv).
    destruct (Zpos v * 2 ^ (- ez)) as [| M | M] eqn:EM; try lia.
    unfold binary_normalize.
    apply binary_round_exact; [exact Hez | now apply safe_size | now symmetry].
  - assert (Hv : Zpos v < 2 ^ 53) by (unfold safe in Hab; lia).
    rewrite (D_of_Z_neg v Hv).
    destruct (Zneg v * 2 ^ (- ez)) as [| M | M] eqn:EM; try lia.
    unfold binary_normalize.
    apply binary_round_exact; [exact Hez | now apply safe_size | lia].
Qed.

Lemma canon_compare (va vb : positive) :
  Zpos va < 2 ^ 53 -> Zpos vb < 2 ^ 53 ->
  match Zpos (Pos.size va) - 53 ?= Zpos (Pos.size vb) - 53 with
  | Lt => Lt
  | Gt => Gt
  | Eq => Pos.compare_cont Eq
            (Z.to_pos (Zpos va * 2 ^ (53 - Zpos (Pos.size va))))
            (Z.to_pos (Zpos vb * 2 ^ (53 - Zpos (Pos.size vb))))
  end = (Zpos va ?= Zpos vb).
Proof.
  intros Ha Hb. symmetry.
  destruct (Z.compare_spec (Zpos (Pos.size va) - 53) (Zpos (Pos.size vb) - 53))
    as [E | L | G].
  - set (ma := Z.to_pos (Zpos va * 2 ^ (53 - Zpos (Pos.size va)))).
    set (mb := Z.to_pos (Zpos vb * 2 ^ (53 - Zpos (Pos.size vb)))).
    change (Pos.compare_cont Eq ma mb) with (Pos.compare ma mb).
    rewrite (Pos2Z.inj_compare ma mb). unfold ma, mb.
    rewrite !canon_mantissa by assumption.
    replace (Zpos (Pos.size vb)) with (Zpos (Pos.size va)) by lia.
    apply safe_size in Ha.
    apply Zmult_compare_compat_r, Z.lt_gt, Z.pow_pos_nonneg; lia.
  - apply Z.compare_lt_iff. rewrite !size_log2 in L.
    apply Z.log2_lt_cancel. lia.
  - apply Z.compare_gt_iff. rewrite !size_log2 in G.
    apply Z.log2_lt_cancel. lia.
Qed.

(** Doubles that hold safe integers compare as the integers do. *)
Lemma SFcompare_exact (a b : Z) :
  safe a -> safe b -> SFcompare (D_of_Z a) (D_of_Z b) = Some (a ?= b).
Proof.
  intros Ha Hb.
  destruct (Z.eq_dec a 0) as [-> | Na]; destruct (Z.eq_dec b 0) as [-> | Nb];
    rewrite ?(D_of_Z_nonzero a), ?(D_of_Z_nonzero b) by assumption.
  - reflexivity.
  - destruct b; [congruence | reflexivity | reflexivity].
  - destruct a; [congruence | reflexivity | reflexivity].
  - unfold safe in *.
    destruct a as [| va | va], b as [| vb | vb]; try congruence;
      cbn [Z.ltb Z.compare Z.abs Z.to_pos canon SFcompare] in *;
      try reflexivity.
    + f_equal. now apply canon_compare.
    + f_equal.
      change (Pos.compare va vb) with (Z.compare (Zpos va) (Zpos vb)).
      rewrite <- (canon_compare va vb Ha Hb).
      now destruct (Zpos (Pos.size va) - 53 ?= Zpos (Pos.size vb) - 53).
Qed.

Lemma falsy_D_of_Z (z : Z) : safe z -> falsy (D_of_Z z) = (z =? 0).
Proof.
  intros H. destruct (Z.eq_dec z 0) as [-> | N]; [reflexivity |].
  rewrite (D_of_Z_nonzero z N H). simpl. symmetry. now apply Z.eqb_neq.
Qed.

Lemma gt_D_of_Z (a b : Z) :
  safe a -> safe b -> Float64.gt (D_of_Z a) (D_of_Z b) = (b <? a).
Proof.
  intros Ha Hb. unfold Float64.gt, SFltb.
  rewrite (SFcompare_exact b a Hb Ha). unfold Z.ltb.
  now destruct (b ?= a).
Qed.

Lemma Z_of_D_of_Z (z : Z) : safe z -> Z_of_double (D_of_Z z) = Some z.
Proof.
  intros H. destruct (Z.eq_dec z 0) as [-> | N]; [reflexivity |].
  rewrite (D_of_Z_nonzero z N H). unfold canon, Z_of_double.
  set (v := Z.to_pos (Z.abs z)).
  assert (Hv : Zpos v < 2 ^ 53) by (unfold v, safe in *; lia).
  rewrite (canon_mantissa v Hv).
  assert (Hs : Zpos (Pos.size v) <= 53) by now apply safe_size.
  assert (Hs1 : 1 <= Zpos (Pos.size v)) by lia.
  set (k := 53 - Zpos (Pos.size v)) in *.
  replace (Zpos (Pos.size v) - 53) with (- k) by (unfold k; lia).
  rewrite Z.opp_involutive.
  assert (Hk : 0 <= k) by (unfold k; lia).
  assert (Hp : 0 < 2 ^ k) by (apply Z.pow_pos_nonneg; lia).
  assert (Ez : cond_Zopp (z <? 0) (Zpos v) = z)
    by (destruct (cond_Zopp_abs z); [assumption | contradiction]).
  destruct (Z.leb_spec 0 (- k)) as [H0 | H0].
  - assert (k = 0) by lia. subst k. replace (53 - Zpos (Pos.size v)) with 0 by lia.
    rewrite Z.opp_0, Z.pow_0_r, !Z.mul_1_r. now rewrite Ez.
  - rewrite Z.mod_mul by lia. rewrite Z.eqb_refl, Z.div_mul by lia.
    now rewrite Ez.
Qed.

End Double_facts.

(** * The planner on doubles *)

Section Float64_facts.

Import SpecFloat.

Lemma safe_0 : safe 0.
Proof. unfold safe. simpl. reflexivity. Qed.

Lemma safe_maxGal : safe 8800.
Proof. unfold safe. simpl. reflexivity. Qed.

Lemma running_safe_app (zs ws : list Z) (acc : Z) :
  running_safe acc (zs ++ ws)
  <-> running_safe acc zs /\ running_safe (acc + sumZ zs) ws.
Proof.
  revert acc. induction zs as [| z zs IH]; intros acc; simpl.
  - rewrite Z.add_0_r. tauto.
  - rewrite IH, Z.add_assoc. tauto.
Qed.

Lemma sumZ_app (zs ws : list Z) : sumZ (zs ++ ws) = sumZ zs + sumZ ws.
Proof.
  induction zs as [| z zs IH]; simpl; [reflexivity | rewrite IH; lia].
Qed.

Lemma running_safe_sum (zs : list Z) (acc : Z) :
  safe acc -> running_safe acc zs -> safe (acc + sumZ zs).
Proof.
  revert acc. induction zs as [| z zs IH]; intros acc Ha H; simpl in *.
  - now rewrite Z.add_0_r.
  - destruct H as (_ & Hs & Hr). rewrite Z.add_assoc. now apply IH.
Qed.

(** On safe integers with safe running sums the reduction adds exactly. *)
Lemma fold_qty_exact (zs : list Z) (items : list Float64.LoadItem) (acc : Z) :
  Float64.quantities items zs -> safe acc -> running_safe acc zs ->
  fold_left (fun sum i => SFadd 53 1024 sum (Float64.item_qty i)) items
            (D_of_Z acc)
  = D_of_Z (acc + sumZ zs).
Proof.
  unfold Float64.quantities. revert items acc.
  induction zs as [| z zs IH]; intros items acc Hq Ha Hr;
    destruct items as [| i items]; try discriminate; simpl in *.
  - now rewrite Z.add_0_r.
  - injection Hq as Hi Hq. destruct Hr as (Hz & Hs & Hr).
    rewrite Hi, SFadd_exact, Z.add_assoc by assumption.
    now apply IH.
Qed.

Lemma totalQty_exact (items : list Float64.LoadItem) (zs : list Z) :
  Float64.quantities items zs -> running_safe 0 zs ->
  Float64.totalQty items = D_of_Z (sumZ zs).
Proof.
  intros Hq Hr. unfold Float64.totalQty.
  change (S754_zero false) with (D_of_Z 0).
  now rewrite (fold_qty_exact zs items 0 Hq safe_0 Hr).
Qed.

Lemma totalQty_double_snoc (items : list Float64.LoadItem) (i : Float64.LoadItem) :
  Float64.totalQty (items ++ [i])
  = SFadd 53 1024 (Float64.totalQty items) (Float64.item_qty i).
Proof.
  unfold Float64.totalQty. now rewrite fold_left_app.
Qed.

Lemma quantities_snoc (items : list Float64.LoadItem) (zs : list Z)
      (g : Grade) (q : Z) :
  Float64.quantities items zs ->
  Float64.quantities (items ++ [Float64.mkItem g (D_of_Z q)]) (zs ++ [q]).
Proof.
  unfold Float64.quantities. intros H. now rewrite !map_app, H.
Qed.

(** The three ways [addItem] ends, by its two tests. *)
Lemma addItem_double_cases (p : Float64.Planner) :
  Float64.addItem p =
    if falsy (Float64.p_qty p) then (p, [Float64.ToastError "Qty?"])
    else if Float64.gt (SFadd 53 1024 (Float64.totalQty (Float64.p_items p))
                              (Float64.p_qty p)) Float64.maxGal
         then (p, [Float64.ToastError "Exceeds 8,800 gal"])
         else (Float64.appended p, []).
Proof. reflexivity. Qed.

(** On safe integers the two tests of [addItem] are those of the
    integers. *)
Lemma addItem_on_integers (p : Float64.Planner) (zs : list Z) (q : Z) :
  Float64.quantities (Float64.p_items p) zs ->
  Float64.p_qty p = D_of_Z q ->
  running_safe 0 (zs ++ [q]) ->
  Float64.addItem p =
    if q =? 0 then (p, [Float64.ToastError "Qty?"])
    else if 8800 <? sumZ zs + q
         then (p, [Float64.ToastError "Exceeds 8,800 gal"])
         else (Float64.appended p, []).
Proof.
  intros Hq Hp Hr. apply running_safe_app in Hr. destruct Hr as [Hzs Hr].
  simpl in Hr. destruct Hr as (Hsq & Hsum & _).
  rewrite addItem_double_cases, Hp, (falsy_D_of_Z q Hsq).
  rewrite (totalQty_exact _ zs Hq Hzs).
  pose proof (running_safe_sum zs 0 safe_0 Hzs) as Hs. simpl in Hs.
  rewrite SFadd_exact by assumption.
  unfold Float64.maxGal. now rewrite gt_D_of_Z by (assumption || exact safe_maxGal).
Qed.

Lemma within_capacity_nil : Float64.within_capacity [].
Proof. reflexivity. Qed.

Lemma dispatch_keeps_capacity (e : Float64.Event) (a : Float64.App) :
  Float64.capacity_invariant a ->
  Float64.capacity_invariant (Float64.dispatch e a).
Proof.
  intros [Hp Hl].
  destruct e; simpl; try (split; [exact Hp | exact Hl]);
    try (split; [exact within_capacity_nil | exact Hl]).
  - (* markLoadDelivered *)
    split; [exact Hp |]. simpl.
    induction Hl as [| l ls Hl0 Hls IH]; simpl; constructor; try exact IH.
    destruct (Float64.load_id l =? id); simpl; exact Hl0.
  - (* addItem *)
    split; [| exact Hl]. simpl. rewrite addItem_double_cases.
    destruct (falsy (Float64.p_qty (Float64.planner a))); simpl; [exact Hp |].
    destruct (Float64.gt _ Float64.maxGal) eqn:G; simpl; [exact Hp |].
    unfold Float64.within_capacity. rewrite totalQty_double_snoc. exact G.
  - (* handleCreateLoad *)
    unfold Float64.handleCreateLoad.
    destruct (negb (truthy (Float64.p_siteId (Float64.planner a)))
              || negb (truthy (Float64.p_driverId (Float64.planner a)))
              || (List.length (Float64.p_items (Float64.planner a)) =? 0)%nat);
      simpl.
    + split; [exact Hp | exact Hl].
    + split; [exact within_capacity_nil |].
      apply Forall_app. split; [exact Hl |]. constructor; [exact Hp | constructor].
Qed.

Lemma run_keeps_capacity (es : list Float64.Event) (a : Float64.App) :
  Float64.capacity_invariant a ->
  Float64.capacity_invariant (Float64.run es a).
Proof.
  revert a. induction es as [| e es IH]; intros a Ha; simpl.
  - exact Ha.
  - apply IH. now apply dispatch_keeps_capacity.
Qed.

(** A total within the ceiling, of safe integers added exactly, is the
    sum of the integers and is at most 8,800. *)
Lemma within_capacity_exact (items : list Float64.LoadItem) (zs : list Z) :
  Float64.within_capacity items ->
  Float64.quantities items zs -> running_safe 0 zs -> sumZ zs <= 8800.
Proof.
  unfold Float64.within_capacity. intros Hw Hq Hr.
  rewrite (totalQty_exact items zs Hq Hr) in Hw.
  pose proof (running_safe_sum zs 0 safe_0 Hr) as Hs. simpl in Hs.
  unfold Float64.maxGal in Hw. rewrite gt_D_of_Z in Hw by (assumption || exact safe_maxGal).
  now apply Z.ltb_ge.
Qed.

Lemma sumZ_positive (qs : list Z) :
  Forall (fun q => 0 < q < 2 ^ 53) qs -> 0 <= sumZ qs.
Proof.
  induction 1 as [| q qs Hq _ IH]; simpl; lia.
Qed.

Lemma totalQty_sumZ (items : list LoadItem) :
  totalQty items = sumZ (map item_qty items).
Proof.
  unfold totalQty.
  assert (H : forall acc, fold_left (fun sum i => sum + item_qty i) items acc
                          = acc + sumZ (map item_qty items)).
  { induction items as [| i items IH]; intros acc; simpl.
    - lia.
    - rewrite IH. lia. }
  now rewrite H.
Qed.

End Float64_facts.

(** C1, as the code has it.  Quantities are doubles.  For an item list
    that holds integers and a positive integer quantity [q], all of fewer
    than 54 bits and such that the sums of the items from left to right,
    and the sum [S + q], have fewer than 54 bits too, [addItem] appends
    the item exactly when [S + q <= 8800] (a total that meets the ceiling
    is accepted) and shows the capacity error exactly when
    [S + q > 8800]. *)
Theorem addItem_accepts_iff_within_capacity
        (p : Float64.Planner) (zs : list Z) (q : Z) :
  Float64.quantities (Float64.p_items p) zs ->
  Float64.p_qty p = D_of_Z q ->
  running_safe 0 (zs ++ [q]) ->
  0 < q ->
  (Float64.accepted p <-> sumZ zs + q <= 8800) /\
  (Float64.rejected p "Exceeds 8,800 gal" <-> 8800 < sumZ zs + q).
Proof.
  intros Hq Hp Hr Hpos.
  unfold Float64.accepted, Float64.rejected.
  rewrite (addItem_on_integers p zs q Hq Hp Hr).
  destruct (Z.eqb_spec q 0) as [E | _]; [lia |].
  destruct (Z.ltb_spec 8800 (sumZ zs + q)) as [Hgt | Hle].
  - split; split; intros H; try lia; try reflexivity.
    apply (f_equal snd) in H. discriminate.
  - split; split; intros H; try lia; try reflexivity.
    apply (f_equal snd) in H. discriminate.
Qed.

(** The scenario of the specification: 5,000 and 3,000 gallons are
    accepted, 801 more are refused, 800 more fill the load to the ceiling. *)
Lemma addItem_scenario_5000_3000_801 :
  let p0 := Float64.setQty (D_of_Z 5000)
              (Float64.mountPlanner Float64.initialStore) in
  let p1 := Float64.setQty (D_of_Z 3000) (fst (Float64.addItem p0)) in
  let p2 := Float64.setQty (D_of_Z 801) (fst (Float64.addItem p1)) in
  let p3 := Float64.setQty (D_of_Z 800) (fst (Float64.addItem p1)) in
  Float64.accepted p0 /\ Float64.accepted p1 /\
  Float64.rejected p2 "Exceeds 8,800 gal" /\ Float64.accepted p3.
Proof.
  cbv zeta. split; [| split; [| split]].
  - apply (addItem_accepts_iff_within_capacity
             (Float64.setQty (D_of_Z 5000)
                (Float64.mountPlanner Float64.initialStore)) [] 5000);
      vm_compute; try reflexivity; try discriminate; repeat split.
  - apply (addItem_accepts_iff_within_capacity
             (Float64.setQty (D_of_Z 3000)
                (fst (Float64.addItem
                        (Float64.setQty (D_of_Z 5000)
                           (Float64.mountPlanner Float64.initialStore)))))
             [5000] 3000);
      vm_compute; try reflexivity; try discriminate; repeat split.
  - apply (addItem_accepts_iff_within_capacity
             (Float64.setQty (D_of_Z 801)
                (fst (Float64.addItem
                        (Float64.setQty (D_of_Z 3000)
                           (fst (Float64.addItem
                                   (Float64.setQty (D_of_Z 5000)
                                      (Float64.mountPlanner
                                         Float64.initialStore))))))))
             [5000; 3000] 801);
      vm_compute; try reflexivity; try discriminate; repeat split.
  - apply (addItem_accepts_iff_within_capacity
             (Float64.setQty (D_of_Z 800)
                (fst (Float64.addItem
                        (Float64.setQty (D_of_Z 3000)
                           (fst (Float64.addItem
                                   (Float64.setQty (D_of_Z 5000)
                                      (Float64.mountPlanner
                                         Float64.initialStore))))))))
             [5000; 3000] 800);
      vm_compute; try reflexivity; try discriminate; repeat split.
Defined.

(** Where C1 fails.  The items hold -10^17 and 1, the quantity typed is
    10^17 + 8800, a positive integer that a double holds as it is.  The
    exact total with it is 8,801, over the ceiling; for the code the sum
    of the items is [-1e17] (the 1 is rounded away) and the total with the
    quantity is 8,800: the item is appended. *)
Lemma addItem_rounded_total_accepted :
  let items := [Float64.mkItem Regular (D_of_Z (- 10 ^ 17));
                Float64.mkItem Regular (D_of_Z 1)] in
  let p := {| Float64.p_siteId := Selected 101;
              Float64.p_driverId := Selected 1;
              Float64.p_items := items;
              Float64.p_grade := Regular;
              Float64.p_qty := D_of_Z (10 ^ 17 + 8800) |} in
  map Z_of_double (map Float64.item_qty items) = [Some (- 10 ^ 17); Some 1] /\
  Z_of_double (Float64.p_qty p) = Some (10 ^ 17 + 8800) /\
  0 < 10 ^ 17 + 8800 /\
  8800 < sumZ [- 10 ^ 17; 1] + (10 ^ 17 + 8800) /\
  Float64.totalQty items = D_of_Z (- 10 ^ 17) /\
  Float64.accepted p.
Proof.
  cbv zeta. repeat split; vm_compute; reflexivity.
Qed.

(** The same with a fraction and no negative quantity: onto one item of
    8,800 gallons, a quantity of 2^-44 gallon, greater than 0, is
    appended; the sum of 8,800 and the quantity is 8,800 again. *)
Lemma addItem_fraction_accepted :
  let q := SpecFloat.S754_finite false (2 ^ 52) (- 96) in
  let p := {| Float64.p_siteId := Selected 101;
              Float64.p_driverId := Selected 1;
              Float64.p_items := [Float64.mkItem Regular (D_of_Z 8800)];
              Float64.p_grade := Regular;
              Float64.p_qty := q |} in
  Float64.totalQty (Float64.p_items p) = D_of_Z 8800 /\
  Float64.gt q (D_of_Z 0) = true /\
  SpecFloat.SFadd 53 1024 (D_of_Z 8800) q = D_of_Z 8800 /\
  Float64.accepted p.
Proof.
  cbv zeta. repeat split; vm_compute; reflexivity.
Qed.





(** * Creating a load *)

Section CreateLoad_facts.

Lemma truthy_false (s : Selection) :
  truthy s = false <-> s = NoSelection \/ s = Selected 0.
Proof.
  destruct s as [| n]; simpl.
  - split; [now left | reflexivity].
  - destruct (Z.eqb_spec n 0) as [-> | Hn]; simpl; split; intros H.
    + now right.
    + reflexivity.
    + discriminate.
    + destruct H as [H | H]; [discriminate | congruence].
Qed.

Lemma truthy_id (s : Selection) :
  s <> Selected 0 -> (truthy s = false <-> s = NoSelection).
Proof.
  intros Hs. rewrite truthy_false. split.
  - intros [H | H]; [exact H | contradiction].
  - now left.
Qed.

Lemma length_zero_nil {A : Type} (l : list A) :
  (List.length l =? 0)%nat = true <-> l = [].
Proof.
  destruct l; simpl; split; intros H; try reflexivity; discriminate.
Qed.

(** The guard of [handleCreateLoad] as a proposition. *)
Lemma createLoad_guard (p : Planner) :
  negb (truthy (p_siteId p)) || negb (truthy (p_driverId p))
  || (List.length (p_items p) =? 0)%nat = true
  <-> truthy (p_siteId p) = false \/ truthy (p_driverId p) = false
      \/ p_items p = [].
Proof.
  rewrite !orb_true_iff, !negb_true_iff, length_zero_nil. tauto.
Qed.

End CreateLoad_facts.

(** Where C4 fails: the id is not fresh.  Two loads created on the same
    reading of [Date.now()] have the same id. *)
Lemma handleCreateLoad_same_reading_same_id :
  let a0 := dispatch EvAddItem (dispatch (EvSetQty 5000) initialApp) in
  let a1 := fst (handleCreateLoad 5 6 a0) in
  let a2 := dispatch EvAddItem (dispatch (EvSetQty 3000) a1) in
  let a3 := fst (handleCreateLoad 5 7 a2) in
  map load_id (loads (store a1)) = [5] /\
  map load_id (loads (store a3)) = [5; 5] /\
  map load_createdAt (loads (store a3)) = [6; 7].
Proof.
  cbv zeta. repeat split.
Qed.

(** C4, as the code has it.  With a site and a driver cell that hold no
    id (the empty string) or an id of the application (never 0: an id is
    101, 1 or a reading of the clock), [handleCreateLoad] shows "Fill all
    fields" and sets nothing exactly when the site is unset, the driver is
    unset or the item list is empty.  Otherwise it adds to the store one
    load with status Planned, the reading of [Date.now()] as id, the
    chosen site and driver, the items, and the reading of [new Date()] as
    creation time; it empties the item list and announces the load.  The
    id is the reading whatever the store holds: among loads of distinct
    ids, the ids stay distinct exactly when no load has the reading as id
    already. *)
Theorem handleCreateLoad_validation (now stamp : Z) (a : App) :
  p_siteId (planner a) <> Selected 0 ->
  p_driverId (planner a) <> Selected 0 ->
  (handleCreateLoad now stamp a = (a, [ToastError "Fill all fields"])
   <-> p_siteId (planner a) = NoSelection
       \/ p_driverId (planner a) = NoSelection
       \/ p_items (planner a) = [])
  /\
  (p_siteId (planner a) <> NoSelection ->
   p_driverId (planner a) <> NoSelection ->
   p_items (planner a) <> [] ->
   let load :=
     {| load_id := now;
        load_siteId := p_siteId (planner a);
        load_driverId := p_driverId (planner a);
        load_items := p_items (planner a);
        load_status := Planned;
        load_createdAt := stamp;
        load_deliveredAt := None |} in
   handleCreateLoad now stamp a =
     ({| store := {| sites := sites (store a);
                     drivers := drivers (store a);
                     loads := loads (store a) ++ [load] |};
         planner := {| p_siteId := p_siteId (planner a);
                       p_driverId := p_driverId (planner a);
                       p_items := [];
                       p_grade := p_grade (planner a);
                       p_qty := p_qty (planner a) |} |},
      [ToastSuccess "Load created";
       NotifyDriver load
         (findDriver (drivers (store a)) (p_driverId (planner a)))])
   /\
   (NoDup (map load_id (loads (store a))) ->
    (NoDup (map load_id
              (loads (store (fst (handleCreateLoad now stamp a)))))
     <-> ~ In now (map load_id (loads (store a)))))).
Proof.
  intros Hs Hd.
  pose proof (createLoad_guard (planner a)) as G.
  rewrite (truthy_id _ Hs), (truthy_id _ Hd) in G.
  unfold handleCreateLoad.
  destruct (negb (truthy (p_siteId (planner a)))
            || negb (truthy (p_driverId (planner a)))
            || (List.length (p_items (planner a)) =? 0)%nat) eqn:E.
  - split.
    + split; [intros _; now apply G | reflexivity].
    + intros Hs' Hd' Hi. exfalso.
      destruct (proj1 G eq_refl) as [H | [H | H]]; contradiction.
  - split.
    + split.
      * intros H. discriminate.
      * intros H. apply G in H. discriminate.
    + intros _ _ _. cbv zeta. split; [reflexivity |].
      cbn [fst store addLoad setLoads loads].
      rewrite map_app. cbn [map load_id]. intros Hnd. split.
      * intros H Hin. apply NoDup_remove_2 in H.
        rewrite app_nil_r in H. contradiction.
      * intros Hin. apply NoDup_app; [exact Hnd | repeat constructor; intros [] |].
        intros x Hx [<- | []]. contradiction.
Qed.

(** An instance: the store holds one load, created on the reading 5;
    the planner holds site 101, driver 1 and one item of 3,000 gallons.
    On the reading 9 a Planned load is created, and the ids are
    distinct. *)
Lemma handleCreateLoad_validation_witness :
  let a0 := dispatch EvAddItem (dispatch (EvSetQty 5000) initialApp) in
  let a1 := fst (handleCreateLoad 5 6 a0) in
  let a := dispatch EvAddItem (dispatch (EvSetQty 3000) a1) in
  map load_status (loads (store (fst (handleCreateLoad 9 10 a))))
  = [Planned; Planned]
  /\ map load_id (loads (store (fst (handleCreateLoad 9 10 a)))) = [5; 9]
  /\ NoDup (map load_id (loads (store (fst (handleCreateLoad 9 10 a))))).
Proof.
  cbv zeta.
  destruct (handleCreateLoad_validation 9 10
              (dispatch EvAddItem
                 (dispatch (EvSetQty 3000)
                    (fst (handleCreateLoad 5 6
                            (dispatch EvAddItem
                               (dispatch (EvSetQty 5000) initialApp)))))))
    as [_ Hok].
  - vm_compute. discriminate.
  - vm_compute. discriminate.
  - destruct Hok as [Heq Hfresh].
    + vm_compute. discriminate.
    + vm_compute. discriminate.
    + vm_compute. discriminate.
    + split; [| split].
      * rewrite Heq. reflexivity.
      * rewrite Heq. reflexivity.
      * apply Hfresh.
        -- simpl. repeat constructor. intros [].
        -- simpl. intros [H | []]. discriminate.
Defined.

(** C5, as the code has it.  From the initial state, after every sequence
    of operations, the total that the code computes for the items being
    planned, and for the items of every load in the store, is not greater
    than 8,800.  Where the items hold integers of fewer than 54 bits whose
    sums from left to right have fewer than 54 bits, that total is their
    sum: they sum to at most 8,800 gallons. *)
Theorem capacity_invariant_always (es : list Float64.Event) :
  let a := Float64.run es Float64.initialApp in
  Float64.capacity_invariant a /\
  (forall zs,
      Float64.quantities (Float64.p_items (Float64.planner a)) zs ->
      running_safe 0 zs -> sumZ zs <= 8800) /\
  (forall l zs,
      In l (Float64.loads (Float64.store a)) ->
      Float64.quantities (Float64.load_items l) zs ->
      running_safe 0 zs -> sumZ zs <= 8800).
Proof.
  cbv zeta.
  assert (Hinv : Float64.capacity_invariant (Float64.run es Float64.initialApp)).
  { apply run_keeps_capacity. split; [reflexivity | constructor]. }
  split; [exact Hinv |]. destruct Hinv as [Hp Hl]. split.
  - intros zs. now apply within_capacity_exact.
  - intros l zs Hin. rewrite Forall_forall in Hl.
    apply within_capacity_exact. now apply Hl.
Qed.

(** Where C5 fails.  Three quantities are typed and added one after the
    other, each accepted: -10^17, 1 and 10^17 + 8800; then the load is
    created.  The store holds a load whose quantities are these three
    integers, and they sum to 8,801 gallons. *)
Lemma stored_load_over_capacity :
  let es := [Float64.EvSetQty (D_of_Z (- 10 ^ 17)); Float64.EvAddItem;
             Float64.EvSetQty (D_of_Z 1); Float64.EvAddItem;
             Float64.EvSetQty (D_of_Z (10 ^ 17 + 8800)); Float64.EvAddItem;
             Float64.EvCreateLoad 1750000000000 1750000000001] in
  map (fun l => map Z_of_double (map Float64.item_qty (Float64.load_items l)))
      (Float64.loads (Float64.store (Float64.run es Float64.initialApp)))
  = [[Some (- 10 ^ 17); Some 1; Some (10 ^ 17 + 8800)]] /\
  sumZ [- 10 ^ 17; 1; 10 ^ 17 + 8800] = 8801 /\
  8800 < 8801.
Proof.
  cbv zeta. repeat split; vm_compute; reflexivity.
Qed.

(** * Properties of the store *)

Section Store_facts.

Lemma map_unless {A : Type} (test : A -> bool) (f : A -> A) (l : list A) :
  (forall x, In x l -> test x = false) ->
  map (fun x => if test x then f x else x) l = l.
Proof.
  induction l as [| x l IH]; intros H; simpl.
  - reflexivity.
  - rewrite (H x (or_introl eq_refl)). f_equal.
    apply IH. intros y Hy. apply H. now right.
Qed.

Lemma filter_keep_all {A : Type} (test : A -> bool) (l : list A) :
  (forall x, In x l -> test x = false) ->
  filter (fun x => negb (test x)) l = l.
Proof.
  induction l as [| x l IH]; intros H; simpl.
  - reflexivity.
  - rewrite (H x (or_introl eq_refl)). simpl. f_equal.
    apply IH. intros y Hy. apply H. now right.
Qed.

Lemma absent_id {A : Type} (key : A -> Z) (id : Z) (l : list A) :
  ~ In id (map key l) -> forall x, In x l -> (key x =? id) = false.
Proof.
  intros Hno x Hx. apply Z.eqb_neq. intros E. apply Hno.
  rewrite <- E. now apply in_map.
Qed.

Lemma find_after_filter {A : Type} (key : A -> Z) (id : Z) (l : list A) :
  find (fun x => id =? key x) (filter (fun x => negb (key x =? id)) l) = None.
Proof.
  induction l as [| x l IH]; simpl.
  - reflexivity.
  - destruct (Z.eqb_spec (key x) id) as [E | N]; simpl.
    + exact IH.
    + destruct (Z.eqb_spec id (key x)) as [E' | _]; [congruence | exact IH].
Qed.

End Store_facts.




(** C9. Called with an id that its collection does not hold, each of
    [updateSite], [deleteSite], [addTankToSite], [updateDriver],
    [deleteDriver] and [markLoadDelivered] returns the store it was given:
    nothing is raised and nothing changes. *)
Theorem absent_id_is_noop (st : Store) (id : Z) :
  (~ In id (map site_id (sites st)) ->
   (forall patch, updateSite id patch st = st) /\
   deleteSite id st = st /\
   (forall tank, addTankToSite id tank st = st)) /\
  (~ In id (map driver_id (drivers st)) ->
   (forall patch, updateDriver id patch st = st) /\
   deleteDriver id st = st) /\
  (~ In id (map load_id (loads st)) ->
   forall now, markLoadDelivered now id st = st).
Proof.
  destruct st as [ss ds ls]. simpl. split; [| split].
  - intros Hno. pose proof (absent_id site_id id ss Hno) as Ha.
    split; [| split]; intros;
      unfold updateSite, deleteSite, addTankToSite, setSites; simpl; f_equal.
    + now apply (map_unless (fun s => site_id s =? id)).
    + now apply (filter_keep_all (fun s => site_id s =? id)).
    + now apply (map_unless (fun s => site_id s =? id)).
  - intros Hno. pose proof (absent_id driver_id id ds Hno) as Ha.
    split; intros;
      unfold updateDriver, deleteDriver, setDrivers; simpl; f_equal.
    + now apply (map_unless (fun d => driver_id d =? id)).
    + now apply (filter_keep_all (fun d => driver_id d =? id)).
  - intros Hno now. pose proof (absent_id load_id id ls Hno) as Ha.
    unfold markLoadDelivered, setLoads; simpl; f_equal.
    now apply (map_unless (fun l => load_id l =? id)).
Qed.

Lemma absent_id_is_noop_witness :
  deleteSite 999 initialStore = initialStore /\
  deleteDriver 999 initialStore = initialStore /\
  markLoadDelivered 5 999 initialStore = initialStore.
Proof.
  destruct (absent_id_is_noop initialStore 999) as (Hs & Hd & Hl).
  split; [| split].
  - apply Hs. vm_compute. intros [H | []]. discriminate.
  - apply Hd. vm_compute. intros [H | []]. discriminate.
  - apply Hl. vm_compute. intros [].
Defined.

(** C10. [deleteSite] changes the sites only and [deleteDriver] the
    drivers only: the loads are the ones before the call, so a load that
    names the deleted site or driver is still in the store, unchanged, and
    looking its site or driver up finds nothing. *)
Theorem delete_keeps_loads (st : Store) (id : Z) :
  (loads (deleteSite id st) = loads st /\
   drivers (deleteSite id st) = drivers st /\
   forall l, In l (loads st) -> load_siteId l = Selected id ->
     In l (loads (deleteSite id st)) /\
     findSite (sites (deleteSite id st)) (load_siteId l) = None) /\
  (loads (deleteDriver id st) = loads st /\
   sites (deleteDriver id st) = sites st /\
   forall l, In l (loads st) -> load_driverId l = Selected id ->
     In l (loads (deleteDriver id st)) /\
     findDriver (drivers (deleteDriver id st)) (load_driverId l) = None).
Proof.
  split; (split; [reflexivity | split; [reflexivity |]]);
    intros l Hin Href; (split; [exact Hin |]); rewrite Href.
  - apply (find_after_filter site_id).
  - apply (find_after_filter driver_id).
Qed.

(** An instance: the initial site 101 and driver 1 are deleted
    while a load names them. *)
Lemma delete_keeps_loads_witness :
  let l := mkLoad 7 (Selected 101) (Selected 1) [mkItem Regular 100]
                  Planned 1000 None in
  let st := addLoad l initialStore in
  In l (loads (deleteSite 101 st)) /\
  findSite (sites (deleteSite 101 st)) (load_siteId l) = None /\
  findSite (sites st) (load_siteId l) <> None.
Proof.
  cbv zeta.
  destruct (delete_keeps_loads
              (addLoad (mkLoad 7 (Selected 101) (Selected 1)
                               [mkItem Regular 100] Planned 1000 None)
                       initialStore) 101) as [(_ & _ & H) _].
  destruct (H (mkLoad 7 (Selected 101) (Selected 1)
                      [mkItem Regular 100] Planned 1000 None)) as [Hin Hnone].
  - simpl. left. reflexivity.
  - reflexivity.
  - split; [exact Hin | split; [exact Hnone |]].
    vm_compute. discriminate.
Defined.

(** * Properties of the distance estimate *)

Section Number_facts.

Local Open Scope num_scope.

Lemma mul_NaN_r (x : Number) : x * NaN = NaN.
Proof. now destruct x. Qed.

Lemma add_NaN_r (x : Number) : x + NaN = NaN.
Proof. now destruct x. Qed.

Lemma toRad_fin (r : R) : toRad (Fin r) = Fin (r * PI / 180)%R.
Proof.
  unfold toRad, Math_PI. simpl.
  destruct (Req_dec_T 180 0) as [E | _]; [lra | reflexivity].
Qed.

Lemma half_fin (r : R) : Fin r / Fin 2 = Fin (r / 2)%R.
Proof.
  simpl. destruct (Req_dec_T 2 0) as [E | _]; [lra | reflexivity].
Qed.

Lemma toRad_not_finite (x : Number) :
  is_finite x = false -> is_finite (toRad x) = false.
Proof.
  pose proof PI_RGT_0 as Hpi.
  destruct x; simpl; intros H; try discriminate; unfold toRad, Math_PI; simpl;
    unfold signed_inf; destruct (Rlt_dec 0 PI) as [_ | N]; try (destruct (N Hpi));
    simpl; try reflexivity;
    destruct (Rlt_dec 180 0) as [N | _]; try lra; reflexivity.
Qed.

Lemma half_not_finite (x : Number) :
  is_finite x = false -> is_finite (x / Fin 2) = false.
Proof.
  destruct x; simpl; intros H; try discriminate; try reflexivity;
    destruct (Rlt_dec 2 0) as [N | _]; try lra; reflexivity.
Qed.

Lemma sub_not_finite (x y : Number) :
  is_finite x && is_finite y = false -> is_finite (x - y) = false.
Proof.
  destruct x, y; simpl; intros H; try discriminate; reflexivity.
Qed.

Lemma sin_not_finite (x : Number) :
  is_finite x = false -> Math_sin x = NaN.
Proof. destruct x; simpl; intros H; try discriminate; reflexivity. Qed.

(** The haversine term of an angle difference that is not finite. *)
Lemma hav_not_finite (x y : Number) :
  is_finite x && is_finite y = false ->
  num_sq (Math_sin (toRad (x - y) / Fin 2)) = NaN.
Proof.
  intros H. rewrite sin_not_finite; [reflexivity |].
  now apply half_not_finite, toRad_not_finite, sub_not_finite.
Qed.

Lemma haversine_NaN_term (h k : Number) :
  h = NaN \/ k = NaN ->
  Fin 6371 * (Fin 2 * Math_atan2 (Math_sqrt (h + k))
                                  (Math_sqrt (Fin 1 - (h + k)))) = NaN.
Proof.
  intros H.
  assert (E : h + k = NaN).
  { destruct H as [-> | ->]; [reflexivity | apply add_NaN_r]. }
  rewrite E. reflexivity.
Qed.

Lemma haversineDistance_not_finite (p1 p2 : LngLat) :
  finite_point p1 && finite_point p2 = false ->
  haversineDistance p1 p2 = NaN.
Proof.
  destruct p1 as [lon1 lat1], p2 as [lon2 lat2].
  unfold finite_point, haversineDistance. simpl fst. simpl snd. intros H.
  apply haversine_NaN_term.
  destruct (is_finite lat2 && is_finite lat1) eqn:Elat.
  - right.
    assert (Elon : is_finite lon2 && is_finite lon1 = false).
    { apply andb_true_iff in Elat. destruct Elat as [E2 E1].
      rewrite E1, E2 in H. rewrite !andb_true_r in H.
      now rewrite andb_comm. }
    rewrite (hav_not_finite _ _ Elon). apply mul_NaN_r.
  - left. now apply hav_not_finite.
Qed.

Lemma sq_sin_half_sym (x y : R) :
  (sin ((x - y) * PI / 180 / 2) * sin ((x - y) * PI / 180 / 2)
   = sin ((y - x) * PI / 180 / 2) * sin ((y - x) * PI / 180 / 2))%R.
Proof.
  replace ((x - y) * PI / 180 / 2)%R with (- ((y - x) * PI / 180 / 2))%R
    by lra.
  rewrite sin_neg. ring.
Qed.

Lemma haversineDistance_sym (p1 p2 : LngLat) :
  haversineDistance p1 p2 = haversineDistance p2 p1.
Proof.
  destruct (finite_point p1 && finite_point p2) eqn:E.
  - destruct p1 as [[lon1 | | |] [lat1 | | |]], p2 as [[lon2 | | |] [lat2 | | |]];
      try discriminate E.
    unfold haversineDistance.
    change (Fin lat2 - Fin lat1) with (Fin (lat2 - lat1)).
    change (Fin lon2 - Fin lon1) with (Fin (lon2 - lon1)).
    change (Fin lat1 - Fin lat2) with (Fin (lat1 - lat2)).
    change (Fin lon1 - Fin lon2) with (Fin (lon1 - lon2)).
    rewrite !toRad_fin, !half_fin. cbn [Math_sin Math_cos num_sq num_mul num_add].
    rewrite (sq_sin_half_sym lat2 lat1), (sq_sin_half_sym lon2 lon1).
    rewrite (Rmult_comm (cos (lat1 * PI / 180)) (cos (lat2 * PI / 180))).
    reflexivity.
  - rewrite (haversineDistance_not_finite p1 p2 E).
    rewrite andb_comm in E.
    now rewrite (haversineDistance_not_finite p2 p1 E).
Qed.

End Number_facts.

Section Same_point.

Local Open Scope num_scope.

(** The distance between two finite points, with the haversine term [a]
    as a real. *)
Lemma haversineDistance_fin (lon1 lat1 lon2 lat2 : R) :
  haversineDistance (Fin lon1, Fin lat1) (Fin lon2, Fin lat2) =
  let a :=
    (sin ((lat2 - lat1) * PI / 180 / 2) * sin ((lat2 - lat1) * PI / 180 / 2)
     + cos (lat1 * PI / 180) * cos (lat2 * PI / 180)
       * (sin ((lon2 - lon1) * PI / 180 / 2)
          * sin ((lon2 - lon1) * PI / 180 / 2)))%R in
  Fin 6371 * (Fin 2 * Math_atan2 (Math_sqrt (Fin a)) (Math_sqrt (Fin (1 - a)))).
Proof.
  unfold haversineDistance.
  change (Fin lat2 - Fin lat1) with (Fin (lat2 - lat1)).
  change (Fin lon2 - Fin lon1) with (Fin (lon2 - lon1)).
  rewrite !toRad_fin, !half_fin. reflexivity.
Qed.

(** From the map's centre to itself: 0 km and 0 minutes. *)
Example estimate_same_point :
  estimate (Fin (-84.51), Fin 39.10) (Fin (-84.51), Fin 39.10) (Fin 55)
  = (Fin 0, Fin 0).
Proof.
  unfold estimate. rewrite haversineDistance_fin. cbv zeta.
  replace ((39.10 - 39.10) * PI / 180 / 2)%R with 0%R by lra.
  replace ((-84.51 - -84.51) * PI / 180 / 2)%R with 0%R by lra.
  rewrite sin_0.
  replace (0 * 0 + cos (39.10 * PI / 180) * cos (39.10 * PI / 180) * (0 * 0))%R
    with 0%R by ring.
  replace (1 - 0)%R with 1%R by ring.
  unfold Math_sqrt.
  destruct (Rlt_dec 0 0) as [N | _]; [lra |].
  destruct (Rlt_dec 1 0) as [N | _]; [lra |].
  rewrite sqrt_0, sqrt_1. unfold Math_atan2, atan2_fin.
  destruct (Rlt_dec 0 1) as [_ | N]; [| lra].
  replace (0 / 1)%R with 0%R by lra. rewrite atan_0.
  cbn [num_mul num_div].
  destruct (Req_dec_T 55 0) as [N | _]; [lra |].
  cbn [num_mul Math_round].
  replace (6371 * (2 * 0))%R with 0%R by ring.
  replace (0 / 55 * 60 + / 2)%R with (/ 2)%R by lra.
  rewrite (Zfloor_eq 0); [reflexivity | simpl; lra].
Qed.

End Same_point.

(** The estimate from a position whose longitude is NaN: the call returns,
    with NaN as distance and as minutes, and [handleETA] shows them. *)
Lemma estimate_NaN_returns_NaN :
  estimate (NaN, Fin 39.10) (Fin (-84.51), Fin 39.10) (Fin 55) = (NaN, NaN) /\
  handleETA true [(NaN, Fin 39.10)] (sites initialStore)
  = Return [ToastETA "Shell – Clifton" NaN NaN].
Proof.
  assert (E : haversineDistance (NaN, Fin 39.10) (Fin (-84.51), Fin 39.10) = NaN)
    by (apply haversineDistance_not_finite; reflexivity).
  split.
  - unfold estimate. rewrite E. reflexivity.
  - unfold handleETA, estimate. cbn [negb nth_error sites initialStore].
    rewrite E. reflexivity.
Qed.

(** C7, as the code has it.  Nothing checks the coordinates: when a
    component of either point is NaN or infinite, the estimate raises
    nothing and returns NaN for the distance and for the minutes,
    whatever the speed. *)
Theorem estimate_not_finite (from to : LngLat) (speedKmH : Number) :
  finite_point from && finite_point to = false ->
  estimate from to speedKmH = (NaN, NaN).
Proof.
  intros H. unfold estimate.
  rewrite (haversineDistance_not_finite from to H). reflexivity.
Qed.

Lemma estimate_not_finite_witness :
  estimate (Fin 0, PosInf) (Fin 0, Fin 0) (Fin 55) = (NaN, NaN).
Proof.
  apply (estimate_not_finite (Fin 0, PosInf) (Fin 0, Fin 0) (Fin 55)).
  reflexivity.
Defined.

(** C8. Over exact real arithmetic the distance of the estimate does not
    depend on the order of the two points, for every pair of points and
    every speed (for points with a component that is not finite both
    distances are NaN). *)
Theorem estimate_distance_symmetric (A B : LngLat) (s : Number) :
  fst (estimate A B s) = fst (estimate B A s).
Proof.
  unfold estimate. simpl. apply haversineDistance_sym.
Qed.

(** * More properties of the store *)

Section Collection_facts.

Context {A : Type} (key : A -> Z).

Lemma map_key_update (id : Z) (f : A -> A) (l : list A) :
  (forall x, key (f x) = key x) ->
  map key (map (fun x => if key x =? id then f x else x) l) = map key l.
Proof.
  intros Hf. rewrite map_map. apply map_ext. intros x.
  destruct (key x =? id); [apply Hf | reflexivity].
Qed.

Lemma find_key_update (id id' : Z) (f : A -> A) (l : list A) :
  (forall x, key (f x) = key x) ->
  find (fun x => id' =? key x) (map (fun x => if key x =? id then f x else x) l)
  = option_map (fun x => if key x =? id then f x else x)
               (find (fun x => id' =? key x) l).
Proof.
  intros Hf. induction l as [| x l IH]; simpl; [reflexivity |].
  assert (E : key (if key x =? id then f x else x) = key x)
    by (destruct (key x =? id); [apply Hf | reflexivity]).
  rewrite E. destruct (id' =? key x); [reflexivity | exact IH].
Qed.

Lemma find_key_snoc (id' : Z) (x : A) (l : list A) :
  find (fun y => id' =? key y) (l ++ [x])
  = match find (fun y => id' =? key y) l with
    | Some y => Some y
    | None => if id' =? key x then Some x else None
    end.
Proof.
  induction l as [| y l IH]; simpl.
  - reflexivity.
  - destruct (id' =? key y); [reflexivity | exact IH].
Qed.

Lemma find_key_filter_other (id id' : Z) (l : list A) :
  id' <> id ->
  find (fun x => id' =? key x) (filter (fun x => negb (key x =? id)) l)
  = find (fun x => id' =? key x) l.
Proof.
  intros Hne. induction l as [| x l IH]; simpl; [reflexivity |].
  destruct (Z.eqb_spec (key x) id) as [E | N]; simpl.
  - destruct (Z.eqb_spec id' (key x)) as [E' | _]; [congruence | exact IH].
  - destruct (id' =? key x); [reflexivity | exact IH].
Qed.

Lemma filter_key_absent (id : Z) (l : list A) :
  ~ In id (map key (filter (fun x => negb (key x =? id)) l)).
Proof.
  intros H. apply in_map_iff in H. destruct H as [x [Hk Hx]].
  apply filter_In in Hx. destruct Hx as [_ Hx].
  apply negb_true_iff, Z.eqb_neq in Hx. contradiction.
Qed.

Lemma filter_key_twice (id : Z) (l : list A) :
  filter (fun x => negb (key x =? id)) (filter (fun x => negb (key x =? id)) l)
  = filter (fun x => negb (key x =? id)) l.
Proof.
  induction l as [| x l IH]; simpl; [reflexivity |].
  destruct (negb (key x =? id)) eqn:E; simpl; [rewrite E; f_equal |]; exact IH.
Qed.

Lemma filter_key_snoc_fresh (x : A) (l : list A) :
  ~ In (key x) (map key l) ->
  filter (fun y => negb (key y =? key x)) (l ++ [x]) = l.
Proof.
  intros Hfresh. rewrite filter_app. simpl. rewrite Z.eqb_refl. simpl.
  rewrite app_nil_r. apply (filter_keep_all (fun y => key y =? key x)).
  now apply absent_id.
Qed.

End Collection_facts.

(** X1. An update keeps the members of its collection and their order:
    the list of ids is the same after [addTankToSite] and
    [markLoadDelivered], and after [updateSite] and [updateDriver] with a
    patch that has no [id]; a site patch without [tanks] keeps every
    site's tanks. *)
Theorem updates_keep_ids (st : Store) (id : Z) :
  (forall patch, sp_id patch = None ->
     map site_id (sites (updateSite id patch st)) = map site_id (sites st)) /\
  (forall patch, sp_tanks patch = None ->
     map site_tanks (sites (updateSite id patch st)) = map site_tanks (sites st)) /\
  (forall tank,
     map site_id (sites (addTankToSite id tank st)) = map site_id (sites st)) /\
  (forall patch, dp_id patch = None ->
     map driver_id (drivers (updateDriver id patch st))
     = map driver_id (drivers st)) /\
  (forall now,
     map load_id (loads (markLoadDelivered now id st)) = map load_id (loads st)).
Proof.
  repeat split.
  - intros patch Hp. simpl.
    apply (map_key_update site_id id (fun s => spread_site s patch)).
    intros s. simpl. now rewrite Hp.
  - intros patch Hp. simpl. rewrite map_map. apply map_ext. intros s.
    destruct (site_id s =? id); [simpl; now rewrite Hp | reflexivity].
  - intros tank. simpl.
    now apply (map_key_update site_id id
                 (fun s => mkSite (site_id s) (site_name s) (site_address s)
                                  (site_phone s) (site_tanks s ++ [tank]))).
  - intros patch Hp. simpl.
    apply (map_key_update driver_id id (fun d => spread_driver d patch)).
    intros d. simpl. now rewrite Hp.
  - intros now. simpl.
    now apply (map_key_update load_id id (deliver now)).
Qed.

Lemma updates_keep_ids_witness :
  map site_id (sites (updateSite 101 (patch_of_form (mkSiteForm "BP" "1 Main St" ""))
                        initialStore)) = [101] /\
  map site_tanks (sites (updateSite 101 (patch_of_form (mkSiteForm "BP" "1 Main St" ""))
                           initialStore))
  = [[mkTank 1 Regular 10000; mkTank 2 Premium 8000]].
Proof.
  destruct (updates_keep_ids initialStore 101) as (Hid & Htanks & _).
  split.
  - rewrite Hid; reflexivity.
  - rewrite Htanks; reflexivity.
Defined.

(** X2. [deleteSite] and [deleteDriver] remove every entry with the id and
    nothing else: afterwards no entry has the id, the entries with another
    id are the ones before, looking another id up gives what it gave
    before, and deleting again changes nothing. *)
Theorem delete_removes_exactly (st : Store) (id : Z) :
  (~ In id (map site_id (sites (deleteSite id st))) /\
   (forall s, In s (sites (deleteSite id st))
              <-> In s (sites st) /\ site_id s <> id) /\
   (forall id', id' <> id ->
      findSite (sites (deleteSite id st)) (Selected id')
      = findSite (sites st) (Selected id')) /\
   deleteSite id (deleteSite id st) = deleteSite id st) /\
  (~ In id (map driver_id (drivers (deleteDriver id st))) /\
   (forall d, In d (drivers (deleteDriver id st))
              <-> In d (drivers st) /\ driver_id d <> id) /\
   (forall id', id' <> id ->
      findDriver (drivers (deleteDriver id st)) (Selected id')
      = findDriver (drivers st) (Selected id')) /\
   deleteDriver id (deleteDriver id st) = deleteDriver id st).
Proof.
  split; (split; [| split; [| split]]).
  - apply (filter_key_absent site_id).
  - intros s. simpl. rewrite filter_In, negb_true_iff, Z.eqb_neq. tauto.
  - intros id' Hne. now apply (find_key_filter_other site_id).
  - unfold deleteSite, setSites. simpl. f_equal.
    apply (filter_key_twice site_id).
  - apply (filter_key_absent driver_id).
  - intros d. simpl. rewrite filter_In, negb_true_iff, Z.eqb_neq. tauto.
  - intros id' Hne. now apply (find_key_filter_other driver_id).
  - unfold deleteDriver, setDrivers. simpl. f_equal.
    apply (filter_key_twice driver_id).
Qed.

(** X3. Adding a site or a driver whose id is new and deleting that id
    gives back the store as it was. *)
Theorem add_then_delete (st : Store) :
  (forall s, ~ In (site_id s) (map site_id (sites st)) ->
     deleteSite (site_id s) (addSite s st) = st) /\
  (forall d, ~ In (driver_id d) (map driver_id (drivers st)) ->
     deleteDriver (driver_id d) (addDriver d st) = st).
Proof.
  destruct st as [ss ds ls]. split.
  - intros s Hs. unfold deleteSite, addSite, setSites. simpl in *. f_equal.
    now apply (filter_key_snoc_fresh site_id).
  - intros d Hd. unfold deleteDriver, addDriver, setDrivers. simpl in *. f_equal.
    now apply (filter_key_snoc_fresh driver_id).
Qed.

Lemma add_then_delete_witness :
  deleteSite 7 (addSite (site_of_form 7 (mkSiteForm "BP" "1 Main St" ""))
                        initialStore) = initialStore.
Proof.
  apply (proj1 (add_then_delete initialStore)
               (site_of_form 7 (mkSiteForm "BP" "1 Main St" ""))).
  vm_compute. intros [H | []]. discriminate.
Defined.

(** X4. A lookup after [addSite] or [addDriver] finds the first entry with
    the id: the entry that was found before when there was one (an added
    entry with a used id is never found), the added entry otherwise when
    the id is its own. *)
Theorem add_then_find (st : Store) (id : Z) :
  (forall s, findSite (sites (addSite s st)) (Selected id)
     = match findSite (sites st) (Selected id) with
       | Some s' => Some s'
       | None => if id =? site_id s then Some s else None
       end) /\
  (forall d, findDriver (drivers (addDriver d st)) (Selected id)
     = match findDriver (drivers st) (Selected id) with
       | Some d' => Some d'
       | None => if id =? driver_id d then Some d else None
       end).
Proof.
  split; intros x.
  - apply (find_key_snoc site_id).
  - apply (find_key_snoc driver_id).
Qed.

(** X5. A lookup after an update is the update of the lookup: what
    [find] returns after [addTankToSite], [updateSite] or [updateDriver]
    (patch without [id]) is what it returned before, with the tank
    appended at the end of its tanks, or the patch spread over it, when it
    has the id that was updated. *)
Theorem update_then_find (st : Store) (id id' : Z) :
  (forall tank,
     findSite (sites (addTankToSite id tank st)) (Selected id')
     = option_map
         (fun s => if site_id s =? id
                   then mkSite (site_id s) (site_name s) (site_address s)
                               (site_phone s) (site_tanks s ++ [tank])
                   else s)
         (findSite (sites st) (Selected id'))) /\
  (forall patch, sp_id patch = None ->
     findSite (sites (updateSite id patch st)) (Selected id')
     = option_map (fun s => if site_id s =? id then spread_site s patch else s)
                  (findSite (sites st) (Selected id'))) /\
  (forall patch, dp_id patch = None ->
     findDriver (drivers (updateDriver id patch st)) (Selected id')
     = option_map (fun d => if driver_id d =? id then spread_driver d patch else d)
                  (findDriver (drivers st) (Selected id'))).
Proof.
  split; [| split].
  - intros tank.
    now apply (find_key_update site_id id id'
                 (fun s => mkSite (site_id s) (site_name s) (site_address s)
                                  (site_phone s) (site_tanks s ++ [tank]))).
  - intros patch Hp.
    apply (find_key_update site_id id id' (fun s => spread_site s patch)).
    intros s. simpl. now rewrite Hp.
  - intros patch Hp.
    apply (find_key_update driver_id id id' (fun d => spread_driver d patch)).
    intros d. simpl. now rewrite Hp.
Qed.

Lemma update_then_find_witness :
  option_map site_tanks
    (findSite (sites (addTankToSite 101 (mkTank 9 Diesel 500) initialStore))
              (Selected 101))
  = Some [mkTank 1 Regular 10000; mkTank 2 Premium 8000; mkTank 9 Diesel 500]
  /\ option_map site_name
       (findSite (sites (updateSite 101
                           (patch_of_form (mkSiteForm "BP" "1 Main St" ""))
                           initialStore)) (Selected 101))
     = Some "BP".
Proof.
  destruct (update_then_find initialStore 101 101) as (Htank & Hsite & _).
  split.
  - rewrite Htank. reflexivity.
  - rewrite Hsite; reflexivity.
Defined.

(** * Deliveries *)

Section Delivery_facts.

Lemma status_is_planned (l : Load) :
  status_is (load_status l) Planned = true <-> load_status l = Planned.
Proof. destruct (load_status l); simpl; split; congruence. Qed.

Lemma status_is_delivered (l : Load) :
  status_is (load_status l) Delivered = true <-> load_status l = Delivered.
Proof. destruct (load_status l); simpl; split; congruence. Qed.

Lemma load_evolved_refl (l : Load) : load_evolved l l.
Proof. unfold load_evolved. tauto. Qed.

Lemma load_evolved_trans (l1 l2 l3 : Load) :
  load_evolved l1 l2 -> load_evolved l2 l3 -> load_evolved l1 l3.
Proof.
  unfold load_evolved. intros (A1 & A2 & A3 & A4 & A5 & A6) (B1 & B2 & B3 & B4 & B5 & B6).
  repeat split; try congruence. auto.
Qed.

Lemma load_evolved_deliver (now : Z) (l : Load) : load_evolved l (deliver now l).
Proof. unfold load_evolved. simpl. tauto. Qed.

Lemma Forall2_evolved_refl (ls : list Load) : Forall2 load_evolved ls ls.
Proof. induction ls; constructor; auto using load_evolved_refl. Qed.

Lemma Forall2_evolved_trans (l1 l2 l3 : list Load) :
  Forall2 load_evolved l1 l2 -> Forall2 load_evolved l2 l3 ->
  Forall2 load_evolved l1 l3.
Proof.
  intros H12. revert l3. induction H12 as [| x y l1 l2 Hxy _ IH]; intros l3 H23.
  - inversion H23. constructor.
  - inversion H23 as [| y' z l2' l3' Hyz Hrest]; subst. constructor.
    + eapply load_evolved_trans; eassumption.
    + now apply IH.
Qed.

Lemma loads_grown_refl (ls : list Load) : loads_grown ls ls.
Proof.
  exists ls, []. split; [now rewrite app_nil_r | apply Forall2_evolved_refl].
Qed.

Lemma loads_grown_trans (l1 l2 l3 : list Load) :
  loads_grown l1 l2 -> loads_grown l2 l3 -> loads_grown l1 l3.
Proof.
  intros (o2 & n2 & -> & H12) (o3 & n3 & -> & H23).
  apply Forall2_app_inv_l in H23.
  destruct H23 as (o3a & o3b & Ha & Hb & ->).
  exists o3a, (o3b ++ n3). split; [now rewrite app_assoc |].
  eapply Forall2_evolved_trans; eassumption.
Qed.

Lemma loads_grown_snoc (ls : list Load) (l : Load) : loads_grown ls (ls ++ [l]).
Proof. exists ls, [l]. split; [reflexivity | apply Forall2_evolved_refl]. Qed.

Lemma loads_grown_deliver (now id : Z) (ls : list Load) :
  loads_grown ls (map (fun l => if load_id l =? id then deliver now l else l) ls).
Proof.
  exists (map (fun l => if load_id l =? id then deliver now l else l) ls), [].
  split; [now rewrite app_nil_r |].
  induction ls as [| l ls IH]; simpl; constructor; [| exact IH].
  destruct (load_id l =? id);
    [apply load_evolved_deliver | apply load_evolved_refl].
Qed.

Lemma handleCreateLoad_grows (now stamp : Z) (a : App) :
  loads_grown (loads (store a))
              (loads (store (fst (handleCreateLoad now stamp a)))).
Proof.
  unfold handleCreateLoad.
  destruct (negb (truthy (p_siteId (planner a)))
            || negb (truthy (p_driverId (planner a)))
            || (List.length (p_items (planner a)) =? 0)%nat); simpl.
  - apply loads_grown_refl.
  - apply loads_grown_snoc.
Qed.

Lemma dispatch_grows (e : Event) (a : App) :
  loads_grown (loads (store a)) (loads (store (dispatch e a))).
Proof.
  destruct e; simpl; try apply loads_grown_refl.
  - apply loads_grown_deliver.
  - apply handleCreateLoad_grows.
Qed.

End Delivery_facts.

(** X6. After [markLoadDelivered] every load with the id is Delivered
    with the time of the call as delivery time, the loads with another id
    are the ones before, the pending tab holds what it held without the
    loads of that id, and the history tab has gained as many loads as the
    pending tab has lost. *)
Theorem markLoadDelivered_effect (now id : Z) (st : Store) :
  (forall l, In l (loads (markLoadDelivered now id st)) -> load_id l = id ->
     load_status l = Delivered /\ load_deliveredAt l = Some now) /\
  (forall l, load_id l <> id ->
     (In l (loads (markLoadDelivered now id st)) <-> In l (loads st))) /\
  filteredLoads TabPending (loads (markLoadDelivered now id st))
  = filter (fun l => negb (load_id l =? id))
           (filteredLoads TabPending (loads st)) /\
  (List.length (filteredLoads TabHistory (loads (markLoadDelivered now id st)))
   + List.length (filteredLoads TabPending (loads (markLoadDelivered now id st)))
   = List.length (filteredLoads TabHistory (loads st))
     + List.length (filteredLoads TabPending (loads st)))%nat.
Proof.
  simpl. set (f := fun l => if load_id l =? id then deliver now l else l).
  assert (Hf : forall l, load_id (f l) = load_id l)
    by (intros l; unfold f; destruct (load_id l =? id); reflexivity).
  split; [| split; [| split]].
  - intros l Hin Hid. apply in_map_iff in Hin. destruct Hin as [l0 [E _]].
    subst l. rewrite Hf in Hid. unfold f.
    rewrite (proj2 (Z.eqb_eq _ _) Hid). simpl. split; reflexivity.
  - intros l Hne. rewrite in_map_iff. split.
    + intros [l0 [E Hin]]. subst l. rewrite Hf in Hne. unfold f.
      now rewrite (proj2 (Z.eqb_neq _ _) Hne).
    + intros Hin. exists l. split; [| exact Hin]. unfold f.
      now rewrite (proj2 (Z.eqb_neq _ _) Hne).
  - unfold filteredLoads.
    induction (loads st) as [| l ls IH]; simpl; [reflexivity |].
    destruct (load_id l =? id) eqn:E.
    + replace (f l) with (deliver now l) by (unfold f; now rewrite E). simpl.
      destruct (status_is (load_status l) Planned); simpl;
        rewrite ?E; simpl; exact IH.
    + replace (f l) with l by (unfold f; now rewrite E).
      destruct (status_is (load_status l) Planned); simpl;
        rewrite ?E; simpl; [f_equal |]; exact IH.
  - unfold filteredLoads.
    induction (loads st) as [| l ls IH]; simpl; [reflexivity |].
    destruct (load_id l =? id) eqn:E.
    + replace (f l) with (deliver now l) by (unfold f; now rewrite E). simpl.
      destruct (load_status l); simpl; lia.
    + replace (f l) with l by (unfold f; now rewrite E).
      destruct (load_status l); simpl; lia.
Qed.

(** X7. The two tabs of the proof-of-delivery page split the loads: a
    load is under Pending exactly when it is Planned and under History
    exactly when it is Delivered, and the two lists together are the loads
    of the store, each once. *)
Theorem tabs_split_loads (ls : list Load) :
  (forall l, In l (filteredLoads TabPending ls)
             <-> In l ls /\ load_status l = Planned) /\
  (forall l, In l (filteredLoads TabHistory ls)
             <-> In l ls /\ load_status l = Delivered) /\
  Permutation (filteredLoads TabPending ls ++ filteredLoads TabHistory ls) ls.
Proof.
  split; [| split].
  - intros l. unfold filteredLoads. now rewrite filter_In, status_is_planned.
  - intros l. unfold filteredLoads. now rewrite filter_In, status_is_delivered.
  - unfold filteredLoads. induction ls as [| l ls IH]; simpl; [constructor |].
    destruct (load_status l); simpl.
    + now constructor.
    + apply Permutation_sym, Permutation_cons_app, Permutation_sym, IH.
Qed.

(** X8. Whatever the operations, a load of the store is never removed or
    moved, its id, site, driver, items and creation time never change,
    and once Delivered it stays Delivered: the loads after any sequence of
    events are the loads before, in the same order and changed at most in
    their delivery, followed by the loads created since. *)
Theorem loads_only_grow (es : list Event) (a : App) :
  loads_grown (loads (store a)) (loads (store (run es a))).
Proof.
  revert a. induction es as [| e es IH]; intros a; simpl.
  - apply loads_grown_refl.
  - eapply loads_grown_trans; [apply dispatch_grows | apply IH].
Qed.

(** * The sites page, the notification and the list of planned loads *)

Section Page_facts.

Lemma set_has_delete (c : IdSet) (id x : Z) :
  set_has (set_delete c id) x = if x =? id then false else set_has c x.
Proof.
  unfold set_has, set_delete. induction c as [| y c IH]; simpl.
  - now destruct (x =? id).
  - destruct (Z.eqb_spec y id) as [E | N]; simpl.
    + rewrite IH. destruct (Z.eqb_spec x id) as [E' | N']; [reflexivity |].
      destruct (Z.eqb_spec y x) as [E'' | _]; [congruence | reflexivity].
    + rewrite IH. destruct (Z.eqb_spec x id) as [E' | N'];
        destruct (Z.eqb_spec y x) as [E'' | N'']; try reflexivity. congruence.
Qed.

Lemma set_has_snoc (c : IdSet) (id x : Z) :
  set_has (c ++ [id]) x = set_has c x || (x =? id).
Proof.
  unfold set_has. rewrite existsb_app. simpl.
  now rewrite orb_false_r, (Z.eqb_sym id x).
Qed.

Lemma set_has_toggle (c : IdSet) (id x : Z) :
  set_has (if set_has c id then set_delete c id else set_add c id) x
  = if x =? id then negb (set_has c id) else set_has c x.
Proof.
  destruct (set_has c id) eqn:E.
  - rewrite set_has_delete. now destruct (x =? id).
  - unfold set_add. rewrite E, set_has_snoc.
    destruct (Z.eqb_spec x id) as [-> | N].
    + now rewrite E.
    + now rewrite orb_false_r.
Qed.

Lemma same_key_same_entry {A : Type} (key : A -> Z) (l : list A) (x y : A) :
  NoDup (map key l) -> In x l -> In y l -> key x = key y -> x = y.
Proof.
  induction l as [| z l IH]; simpl; intros Hnd Hx Hy Hk; [contradiction |].
  inversion Hnd as [| k ks Hnotin Hnd']; subst.
  destruct Hx as [-> | Hx], Hy as [-> | Hy].
  - reflexivity.
  - exfalso. apply Hnotin. rewrite Hk. now apply in_map.
  - exfalso. apply Hnotin. rewrite <- Hk. now apply in_map.
  - now apply IH.
Qed.

Lemma map_fixes {A : Type} (key : A -> Z) (id : Z) (f : A -> A) (l : list A) :
  (forall x, In x l -> key x = id -> f x = x) ->
  map (fun x => if key x =? id then f x else x) l = l.
Proof.
  induction l as [| x l IH]; intros H; simpl; [reflexivity |]. f_equal.
  - destruct (Z.eqb_spec (key x) id) as [E | _]; [| reflexivity].
    apply H; [now left | exact E].
  - apply IH. intros y Hy. apply H. now right.
Qed.

Lemma truthy_str_true (s : string) : truthy_str s = true <-> s <> "".
Proof. destruct s; simpl; split; congruence. Qed.

Lemma truthy_num_some (n : Z) : n <> 0 -> truthy_num (Some n) = Some n.
Proof. intros H. simpl. now rewrite (proj2 (Z.eqb_neq _ _) H). Qed.

Lemma loadRows_throws (ss : list Site) (ls : list Load) :
  loadRows ss ls = Throw TypeError
  <-> exists l, In l ls /\ findSite ss (load_siteId l) = None.
Proof.
  induction ls as [| l ls IH]; simpl.
  - split; [discriminate | intros [l [[] _]]].
  - destruct (findSite ss (load_siteId l)) as [s |] eqn:E.
    + destruct (loadRows ss ls) as [rows | e] eqn:R.
      * split; [discriminate |]. intros [l' [[<- | Hin] Hnone]]; [congruence |].
        assert (H : Return rows = Throw TypeError)
          by (apply IH; exists l'; now split).
        discriminate.
      * destruct e. split; [| reflexivity]. intros _.
        destruct (proj1 IH eq_refl) as [l' [Hin Hnone]].
        exists l'. split; [now right | exact Hnone].
    + split; [| reflexivity]. intros _. exists l. split; [now left | exact E].
Qed.

Lemma loadRows_length (ss : list Site) (ls : list Load) (rows : list (Z * string)) :
  loadRows ss ls = Return rows -> List.length rows = List.length ls.
Proof.
  revert rows. induction ls as [| l ls IH]; simpl; intros rows H.
  - now inversion H.
  - destruct (findSite ss (load_siteId l)); [| discriminate].
    destruct (loadRows ss ls) as [rows' | e]; [| discriminate].
    inversion H; subst. simpl. f_equal. now apply IH.
Qed.

Lemma plannedLoads_throws (st : Store) :
  plannedLoads (sites st) (loads st) = Throw TypeError <-> dangling_planned st.
Proof.
  unfold plannedLoads, dangling_planned.
  destruct (loads st) as [| l0 ls] eqn:El.
  - simpl. split; [discriminate | intros [l [[] _]]].
  - change ((0 <? List.length (l0 :: ls))%nat) with true. cbv iota.
    rewrite loadRows_throws. split.
    + intros [l [Hin Hnone]]. apply filter_In in Hin. destruct Hin as [Hin Hst].
      exists l. repeat split; try assumption. now apply status_is_planned.
    + intros [l (Hin & Hst & Hnone)]. exists l. split; [| exact Hnone].
      apply filter_In. split; [exact Hin | now apply status_is_planned].
Qed.

End Page_facts.

(** X9. A click on a site's name flips whether that site is collapsed and
    leaves every other site as it was; a second click on the same name
    restores what was shown. *)
Theorem toggleCollapse_flips (id x : Z) (pg : SitesPage) :
  set_has (collapsed (toggleCollapse id pg)) x
  = (if x =? id then negb (set_has (collapsed pg) id)
     else set_has (collapsed pg) x) /\
  set_has (collapsed (toggleCollapse id (toggleCollapse id pg))) x
  = set_has (collapsed pg) x.
Proof.
  split.
  - simpl. apply set_has_toggle.
  - simpl. rewrite !set_has_toggle, Z.eqb_refl.
    destruct (Z.eqb_spec x id) as [-> | N]; [apply negb_involutive | reflexivity].
Qed.

(** X10. Opening the edit form of a site, or of a driver, and saving it
    as it is leaves the store as it was, when the entry is in the store
    under an id that no other entry has and that is not 0, and its name is
    not empty. *)
Theorem edit_then_save_is_noop (now : Z) (st : Store) :
  (forall site pg,
     In site (sites st) -> NoDup (map site_id (sites st)) ->
     site_id site <> 0 -> site_name site <> "" ->
     handleSaveSite now st (openEditSite site pg)
     = (st, setSiteModal (mkModal false None) (openEditSite site pg),
        [ToastSuccess "Site updated"])) /\
  (forall d ds,
     In d (drivers st) -> NoDup (map driver_id (drivers st)) ->
     driver_id d <> 0 -> driver_name d <> "" ->
     handleSave now st (openEdit d ds)
     = (st, setModal (mkModal false None) (openEdit d ds),
        [ToastSuccess "Driver updated"])).
Proof.
  destruct st as [ss dsl ls]. simpl. split.
  - intros site pg Hin Hnd Hid Hname. unfold handleSaveSite.
    cbn [formSite openEditSite setSiteModal setFormSite f_name siteModal m_editId].
    rewrite (proj2 (truthy_str_true _) Hname), (truthy_num_some _ Hid).
    cbn [negb]. f_equal. f_equal.
    unfold updateSite, setSites. simpl. f_equal.
    apply (map_fixes site_id). intros s Hs Hk.
    rewrite (same_key_same_entry site_id ss s site Hnd Hs Hin Hk).
    now destruct site.
  - intros d ds Hin Hnd Hid Hname. unfold handleSave.
    cbn [form openEdit setModal setForm df_name modal m_editId].
    rewrite (proj2 (truthy_str_true _) Hname), (truthy_num_some _ Hid).
    cbn [negb]. f_equal. f_equal.
    unfold updateDriver, setDrivers. simpl. f_equal.
    apply (map_fixes driver_id). intros x Hx Hk.
    rewrite (same_key_same_entry driver_id dsl x d Hnd Hx Hin Hk).
    now destruct d.
Qed.

Lemma edit_then_save_is_noop_witness :
  fst (fst (handleSaveSite 5
              initialStore
              (openEditSite
                 (mkSite 101 "Shell – Clifton" "123 MLK Dr, Cincinnati OH"
                         "+15135559876"
                         [mkTank 1 Regular 10000; mkTank 2 Premium 8000])
                 mountSitesPage)))
  = initialStore.
Proof.
  rewrite (proj1 (edit_then_save_is_noop 5 initialStore)).
  - reflexivity.
  - simpl. left. reflexivity.
  - vm_compute. constructor; [intros [] | constructor].
  - vm_compute. discriminate.
  - discriminate.
Defined.

(** X11. [notifyDriver] is rejected exactly when no site of the store has
    the load's site id, before anything is shared or copied.  Otherwise
    it shares the message when the browser can share and copies it to the
    clipboard when it cannot, shows "Copied assignment to clipboard" only
    after a copy that succeeded, and warns on the console only after a
    call that failed.  The driver it is given makes no difference. *)
Theorem notifyDriver_outcome (nav : Navigator) (ss : list Site) (load : Load)
    (driver : option Driver) :
  (notifyDriver nav ss load driver = Throw TypeError
   <-> findSite ss (load_siteId load) = None) /\
  (forall site, findSite ss (load_siteId load) = Some site ->
     let message := notifyMessage (site_name site) load in
     exists effs,
       notifyDriver nav ss load driver = Return effs /\
       hd_error effs
       = Some (match nav_share nav with
               | Some _ => Share "Load Assignment" message
               | None => ClipboardWrite message
               end) /\
       (In (Toast "Copied assignment to clipboard") effs
        <-> nav_share nav = None /\ nav_writeText nav message = true) /\
       (In ConsoleWarn effs
        <-> match nav_share nav with
            | Some share => share "Load Assignment" message = false
            | None => nav_writeText nav message = false
            end)) /\
  notifyDriver nav ss load driver = notifyDriver nav ss load None.
Proof.
  unfold notifyDriver. split; [| split; [| reflexivity]].
  - destruct (findSite ss (load_siteId load)) as [site |].
    + split; [| discriminate].
      destruct (nav_share nav) as [share |].
      * destruct (share _ _); discriminate.
      * destruct (nav_writeText nav _); discriminate.
    + split; reflexivity.
  - intros site ->. cbv zeta.
    destruct (nav_share nav) as [share |].
    + destruct (share _ _) eqn:E; eexists; (split; [reflexivity |]); simpl;
        (split; [reflexivity |]); split; split;
        try (intros [H | H]); try (intros [H H']); try intros H;
        try discriminate; try contradiction; try reflexivity; auto.
      destruct H as [H | []]. discriminate.
    + destruct (nav_writeText nav _) eqn:E; eexists; (split; [reflexivity |]);
        simpl; (split; [reflexivity |]); split; split;
        try (intros [H | [H | H]]); try (intros [H H']); try intros H;
        try discriminate; try contradiction; try reflexivity; auto.
Qed.

(** X12. Rendering the planner's list of planned loads throws exactly
    when a Planned load of the store names a site that the store does not
    hold; otherwise it yields one row for each Planned load.  The
    proof-of-delivery page renders the same loads whatever their site: a
    load whose site is missing gets a row without a name. *)
Theorem plannedLoads_throws_iff (st : Store) :
  (plannedLoads (sites st) (loads st) = Throw TypeError <-> dangling_planned st) /\
  (forall rows, plannedLoads (sites st) (loads st) = Return rows ->
     List.length rows = List.length (filteredLoads TabPending (loads st))) /\
  (forall tab, List.length (podRows (sites st) tab (loads st))
               = List.length (filteredLoads tab (loads st))) /\
  (forall l, In l (filteredLoads TabPending (loads st)) ->
     findSite (sites st) (load_siteId l) = None ->
     In (None, load_createdAt l) (podRows (sites st) TabPending (loads st))).
Proof.
  split; [apply plannedLoads_throws | split; [| split]].
  - intros rows. unfold plannedLoads, filteredLoads.
    destruct (0 <? List.length (loads st))%nat eqn:E.
    + apply loadRows_length.
    + intros H. inversion H. apply Nat.ltb_ge in E.
      destruct (loads st); [reflexivity | simpl in E; lia].
  - intros tab. unfold podRows. apply length_map.
  - intros l Hin Hnone. unfold podRows. apply in_map_iff. exists l.
    split; [now rewrite Hnone | exact Hin].
Qed.

(** * Invariants of a session *)

(** The gates of a step: a row or an option that may not exist, a modal
    that may be closed. *)
Ltac split_gates :=
  repeat match goal with
  | |- context [match nth_error ?l ?n with _ => _ end] =>
      let E := fresh "Enth" in destruct (nth_error l n) eqn:E
  | |- context [if m_open ?m then _ else _] => destruct (m_open m)
  | |- context [match tankModalFor ?pg with _ => _ end] =>
      destruct (tankModalFor pg)
  end.

Section Session_facts.

Lemma Forall_filter_keeps {A : Type} (P : A -> Prop) (f : A -> bool) (l : list A) :
  Forall P l -> Forall P (filter f l).
Proof.
  intros H. apply Forall_forall. intros x Hx. apply filter_In in Hx.
  rewrite Forall_forall in H. now apply H.
Qed.

Lemma Forall_map_update {A : Type} (P : A -> Prop) (test : A -> bool)
    (f : A -> A) (l : list A) :
  (forall x, P x -> P (f x)) ->
  Forall P l -> Forall P (map (fun x => if test x then f x else x) l).
Proof.
  intros Hf H. induction H as [| x l Hx _ IH]; simpl; constructor; [| exact IH].
  destruct (test x); auto.
Qed.

Lemma store_ok_deleteSite (id : Z) (st : Store) :
  store_ok st -> store_ok (deleteSite id st).
Proof.
  intros (Hs & Hd & Hl). repeat split; simpl; try assumption.
  now apply Forall_filter_keeps.
Qed.

Lemma store_ok_deleteDriver (id : Z) (st : Store) :
  store_ok st -> store_ok (deleteDriver id st).
Proof.
  intros (Hs & Hd & Hl). repeat split; simpl; try assumption.
  now apply Forall_filter_keeps.
Qed.

Lemma store_ok_handleSaveSite (now : Z) (st : Store) (pg : SitesPage) :
  store_ok st -> store_ok (fst (fst (handleSaveSite now st pg))).
Proof.
  intros (Hs & Hd & Hl). unfold handleSaveSite.
  destruct (truthy_str (f_name (formSite pg))) eqn:En; simpl;
    [| repeat split; assumption].
  apply truthy_str_true in En.
  destruct (truthy_num (m_editId (siteModal pg))) as [editId |]; simpl.
  - repeat split; simpl; try assumption.
    apply Forall_map_update; [| exact Hs].
    intros s [_ Ht]. split; simpl; assumption.
  - repeat split; simpl; try assumption.
    apply Forall_app. split; [exact Hs |]. constructor; [| constructor].
    split; simpl; [exact En | constructor].
Qed.

Lemma store_ok_handleAddTank (now : Z) (st : Store) (pg : SitesPage) :
  store_ok st -> store_ok (fst (fst (handleAddTank now st pg))).
Proof.
  intros (Hs & Hd & Hl). unfold handleAddTank.
  destruct (Z.eqb_spec (nt_capacity (newTank pg)) 0) as [E | N]; simpl;
    [repeat split; assumption |].
  destruct (tankModalFor pg) as [siteId |]; [| repeat split; assumption].
  repeat split; simpl; try assumption.
  apply Forall_map_update; [| exact Hs].
  intros s [Hn Ht]. split; simpl; [exact Hn |].
  apply Forall_app. split; [exact Ht |]. constructor; [exact N | constructor].
Qed.

Lemma store_ok_handleSave (now : Z) (st : Store) (ds : DriversSection) :
  store_ok st -> store_ok (fst (fst (handleSave now st ds))).
Proof.
  intros (Hs & Hd & Hl). unfold handleSave.
  destruct (truthy_str (df_name (form ds))) eqn:En; simpl;
    [| repeat split; assumption].
  apply truthy_str_true in En.
  destruct (truthy_num (m_editId (modal ds))) as [editId |]; simpl.
  - repeat split; simpl; try assumption.
    apply Forall_map_update; [| exact Hd]. intros d _. exact En.
  - repeat split; simpl; try assumption.
    apply Forall_app. split; [exact Hd |]. constructor; [exact En | constructor].
Qed.

Lemma load_ok_deliver (now : Z) (l : Load) : load_ok l -> load_ok (deliver now l).
Proof.
  intros (H1 & H2 & H3 & H4 & H5 & H6). unfold load_ok. simpl.
  repeat split; try assumption; intros; try discriminate; reflexivity.
Qed.

Lemma store_ok_markLoadDelivered (now id : Z) (st : Store) :
  store_ok st -> store_ok (markLoadDelivered now id st).
Proof.
  intros (Hs & Hd & Hl). repeat split; simpl; try assumption.
  apply Forall_map_update; [apply load_ok_deliver | exact Hl].
Qed.

Lemma store_ok_handleUpload (l : Load) (file : option string) (now : Z)
    (st : Store) (pod : PodPage) :
  store_ok st -> store_ok (fst (fst (handleUpload l file now st pod))).
Proof.
  intros H. destruct file; simpl; [now apply store_ok_markLoadDelivered | exact H].
Qed.

Lemma store_ok_handleCreateLoad (now stamp : Z) (st : Store) (p : Planner) :
  store_ok st -> Forall item_ok (p_items p) -> totalQty (p_items p) <= maxGal ->
  store_ok (store (fst (handleCreateLoad now stamp (mkApp st p)))).
Proof.
  intros (Hs & Hd & Hl) Hi Hc. unfold handleCreateLoad. simpl.
  destruct (negb (truthy (p_siteId p)) || negb (truthy (p_driverId p))
            || (List.length (p_items p) =? 0)%nat) eqn:G; simpl.
  - repeat split; assumption.
  - apply orb_false_iff in G. destruct G as [G Glen].
    apply orb_false_iff in G. destruct G as [Gs Gd].
    apply negb_false_iff in Gs, Gd.
    repeat split; simpl; try assumption.
    apply Forall_app. split; [exact Hl |]. constructor; [| constructor].
    unfold load_ok. simpl. repeat split; try assumption; try discriminate.
    + intros E. rewrite E in Glen. discriminate.
    + intros H. now elim H.
Qed.

Lemma addItem_keeps_items_ok (p : Planner) :
  Forall item_ok (p_items p) -> totalQty (p_items p) <= maxGal ->
  Forall item_ok (p_items (fst (addItem p))) /\
  totalQty (p_items (fst (addItem p))) <= maxGal /\
  p_siteId (fst (addItem p)) = p_siteId p.
Proof.
  intros Hi Hc. unfold addItem.
  destruct (Z.eqb_spec (p_qty p) 0) as [E | N]; simpl; [tauto |].
  destruct (Z.gtb_spec (totalQty (p_items p) + p_qty p) maxGal) as [G | L];
    simpl; [tauto |].
  repeat split.
  - apply Forall_app. split; [exact Hi |]. constructor; [exact N | constructor].
  - rewrite totalQty_snoc. simpl. exact L.
Qed.

Lemma dangling_same_sites_loads (st st' : Store) :
  sites st' = sites st -> loads st' = loads st ->
  ~ dangling_planned st -> ~ dangling_planned st'.
Proof.
  intros Es El H (l & Hin & Hst & Hnone). apply H. exists l.
  rewrite Es, El in *. now repeat split.
Qed.

Lemma find_present {A : Type} (key : A -> Z) (x : A) (l : list A) :
  In x l -> find (fun y => key x =? key y) l <> None.
Proof.
  induction l as [| y l IH]; simpl; [contradiction |].
  intros [-> | Hin].
  - now rewrite Z.eqb_refl.
  - destruct (key x =? key y); [discriminate | now apply IH].
Qed.

Lemma showPlanner_ok (st : Store) (p : Planner) (ds : DriversSection) :
  ~ dangling_planned st -> showPlanner st p ds = OnPlanner p ds.
Proof.
  intros H. unfold showPlanner.
  destruct (plannedLoads (sites st) (loads st)) as [rows | e] eqn:E;
    [reflexivity |].
  destruct e. apply plannedLoads_throws in E. contradiction.
Qed.

Lemma showPlanner_cases (st : Store) (p : Planner) (ds : DriversSection) :
  (showPlanner st p ds = OnPlanner p ds /\ ~ dangling_planned st) \/
  (showPlanner st p ds = Crashed /\ dangling_planned st).
Proof.
  unfold showPlanner.
  destruct (plannedLoads (sites st) (loads st)) as [rows | e] eqn:E.
  - left. split; [reflexivity |]. intros H.
    apply plannedLoads_throws in H. congruence.
  - right. split; [reflexivity |]. destruct e. now apply plannedLoads_throws.
Qed.

Lemma handleCreateLoad_keeps_planner (now stamp : Z) (st : Store) (p : Planner) :
  planner_ok st p ->
  planner_ok (store (fst (handleCreateLoad now stamp (mkApp st p))))
             (planner (fst (handleCreateLoad now stamp (mkApp st p)))).
Proof.
  intros (Hi & Hc & Hsel & Hdang). unfold handleCreateLoad. simpl.
  destruct (negb (truthy (p_siteId p)) || negb (truthy (p_driverId p))
            || (List.length (p_items p) =? 0)%nat) eqn:G; simpl.
  - repeat split; assumption.
  - apply orb_false_iff in G. destruct G as [G _].
    apply orb_false_iff in G. destruct G as [Gs _].
    apply negb_false_iff in Gs.
    repeat split; simpl.
    + constructor.
    + unfold totalQty, maxGal. simpl. lia.
    + exact Hsel.
    + intros (l & Hin & Hst & Hnone). simpl in *.
      apply in_app_or in Hin. destruct Hin as [Hin | [<- | []]].
      * apply Hdang. exists l. now repeat split.
      * simpl in Hnone. destruct Hsel as [E | (s & Hs & E)].
        -- rewrite E in Gs. discriminate.
        -- rewrite E in Hnone. revert Hnone. now apply (find_present site_id).
Qed.

Lemma mountPlanner_selected (st : Store) : site_selected st (mountPlanner st).
Proof.
  unfold site_selected, mountPlanner. simpl.
  destruct (sites st) as [| s ss]; simpl; [now left |].
  destruct (site_id s =? 0); [now left | right].
  exists s. split; [now left | reflexivity].
Qed.

Lemma mount_ok (r : Route) (st : Store) :
  store_ok st -> ui_ok (mkUI st (mount r st)).
Proof.
  intros H. split; [exact H |]. destruct r; simpl; try exact I.
  destruct (showPlanner_cases st (mountPlanner st) mountDriversSection)
    as [[-> Hd] | [-> _]]; [| exact I].
  repeat split.
  - constructor.
  - unfold totalQty, maxGal. simpl. lia.
  - apply mountPlanner_selected.
  - exact Hd.
Qed.

Lemma planner_shown_ok (st : Store) (p : Planner) (ds : DriversSection) :
  store_ok st -> planner_ok st p ->
  ui_ok (mkUI st (showPlanner st p ds)) /\
  ui_page (mkUI st (showPlanner st p ds)) <> Crashed.
Proof.
  intros Hst Hp. rewrite showPlanner_ok by apply Hp.
  split; [now split | discriminate].
Qed.

Lemma planner_ok_drivers (st st' : Store) (p : Planner) :
  sites st' = sites st -> loads st' = loads st ->
  planner_ok st p -> planner_ok st' p.
Proof.
  intros Es El (Hi & Hc & Hsel & Hd). repeat split; try assumption.
  - unfold site_selected in *. now rewrite Es.
  - eapply dangling_same_sites_loads; eassumption.
Qed.

Lemma stepSites_ok (a : Action) (st : Store) (pg : SitesPage) :
  store_ok st -> ui_ok (stepSites a st pg).
Proof.
  intros H. unfold stepSites.
  destruct a as [r | | row | row | row | row | s | s | s | now | | g | v | now | | row | row | g | v | | now stamp | | row | row | s | s | now | | t | row file now];
    simpl;
    try (destruct r; cbv beta iota; try (now apply mount_ok); now split);
    split_gates;
    try (split; simpl; [assumption | exact I]).
  - split; [now apply store_ok_deleteSite | exact I].
  - pose proof (store_ok_handleSaveSite now st pg H) as H'.
    destruct (handleSaveSite now st pg) as [[st' pg'] effs]. now split.
  - pose proof (store_ok_handleAddTank now st pg H) as H'.
    destruct (handleAddTank now st pg) as [[st' pg'] effs]. now split.
Qed.

Lemma stepPlanner_ok (a : Action) (st : Store) (p : Planner) (ds : DriversSection) :
  store_ok st -> planner_ok st p ->
  ui_ok (stepPlanner a st p ds) /\ ui_page (stepPlanner a st p ds) <> Crashed.
Proof.
  intros H Hp. pose proof Hp as (Hi & Hc & Hsel & Hd). unfold stepPlanner.
  destruct a as [r | | row | row | row | row | s | s | s | now | | g | v | now | | row | row | g | v | | now stamp | | row | row | s | s | now | | t | row file now];
    simpl;
    try (destruct r; cbv beta iota;
         (split; [try (now apply mount_ok); now split | simpl; discriminate]));
    split_gates;
    try (split; [now split | discriminate]);
    try (apply planner_shown_ok; [assumption | now repeat split]).
  - (* PickSite *)
    apply planner_shown_ok; [assumption |]. repeat split; try assumption.
    right. eexists. split; [eapply nth_error_In; eassumption | reflexivity].
  - (* ClickAdd *)
    destruct (addItem_keeps_items_ok p Hi Hc) as (Hi' & Hc' & Es).
    apply planner_shown_ok; [assumption |]. repeat split; try assumption.
    unfold site_selected. now rewrite Es.
  - (* ClickCreateLoad *)
    apply planner_shown_ok.
    + now apply store_ok_handleCreateLoad.
    + now apply handleCreateLoad_keeps_planner.
  - (* ClickDeleteDriver *)
    apply planner_shown_ok; [now apply store_ok_deleteDriver |].
    now apply (planner_ok_drivers st).
  - (* ClickSaveDriver *)
    pose proof (store_ok_handleSave now st ds H) as H'.
    assert (Es : sites (fst (fst (handleSave now st ds))) = sites st /\
                 loads (fst (fst (handleSave now st ds))) = loads st).
    { unfold handleSave. destruct (negb (truthy_str (df_name (form ds))));
        [now split |].
      destruct (truthy_num (m_editId (modal ds))); now split. }
    destruct (handleSave now st ds) as [[st' ds'] effs]. simpl in *.
    apply planner_shown_ok; [assumption |].
    now apply (planner_ok_drivers st).
Qed.

Lemma stepPod_ok (a : Action) (st : Store) (pod : PodPage) :
  store_ok st -> ui_ok (stepPod a st pod).
Proof.
  intros H. unfold stepPod.
  destruct a as [r | | row | row | row | row | s | s | s | now | | g | v | now | | row | row | g | v | | now stamp | | row | row | s | s | now | | t | row file now];
    simpl;
    try (destruct r; cbv beta iota; try (now apply mount_ok); now split);
    try (now split).
  destruct (pod_tab pod); [| now split].
  destruct (nth_error (filteredLoads TabPending (loads st)) row) as [l |];
    [| now split].
  pose proof (store_ok_handleUpload l file now st pod H) as H'.
  destruct (handleUpload l file now st pod) as [[st' pod'] effs]. now split.
Qed.

Lemma step_ok (a : Action) (u : UI) : ui_ok u -> ui_ok (step a u).
Proof.
  destruct u as [st pg]. intros [H Hp]. unfold step. simpl in *.
  destruct pg.
  - now apply stepSites_ok.
  - now apply (stepPlanner_ok a st p ds).
  - destruct a; try (now split).
    destruct r; cbv beta iota; try (now apply mount_ok); now split.
  - now apply stepPod_ok.
  - now split.
Qed.

Lemma initialUI_ok : ui_ok initialUI.
Proof.
  split; [| exact I]. unfold store_ok. simpl. repeat split.
  - constructor; [| constructor]. split; simpl; [discriminate |].
    constructor; [discriminate | constructor; [discriminate | constructor]].
  - constructor; [discriminate | constructor].
  - constructor.
Qed.

Lemma runUI_ok (acts : list Action) (u : UI) : ui_ok u -> ui_ok (runUI acts u).
Proof.
  revert u. induction acts as [| a acts IH]; intros u H; simpl;
    [exact H | apply IH, step_ok, H].
Qed.

End Session_facts.

Section Session_more.

Lemma mount_crash (r : Route) (st : Store) :
  mount r st = Crashed -> r = ToPlanner /\ dangling_planned st.
Proof.
  destruct r; simpl; try discriminate. intros H. split; [reflexivity |].
  destruct (showPlanner_cases st (mountPlanner st) mountDriversSection)
    as [[E _] | [_ Hd]]; [congruence | exact Hd].
Qed.

Lemma stepSites_crash (a : Action) (st : Store) (pg : SitesPage) :
  ui_page (stepSites a st pg) = Crashed -> a = Go ToPlanner /\ dangling_planned st.
Proof.
  unfold stepSites.
  destruct a as [r | | row | row | row | row | s | s | s | now | | g | v | now | | row | row | g | v | | now stamp | | row | row | s | s | now | | t | row file now];
    simpl; split_gates; simpl; try discriminate.
  - destruct r; simpl; try discriminate. intros H.
    now destruct (mount_crash ToPlanner st H).
  - destruct (handleSaveSite now st pg) as [[st' pg'] effs]. discriminate.
  - destruct (handleAddTank now st pg) as [[st' pg'] effs]. discriminate.
Qed.

Lemma stepPod_crash (a : Action) (st : Store) (pod : PodPage) :
  ui_page (stepPod a st pod) = Crashed -> a = Go ToPlanner /\ dangling_planned st.
Proof.
  unfold stepPod.
  destruct a as [r | | row | row | row | row | s | s | s | now | | g | v | now | | row | row | g | v | | now stamp | | row | row | s | s | now | | t | row file now];
    simpl; try discriminate.
  - destruct r; simpl; try discriminate. intros H.
    now destruct (mount_crash ToPlanner st H).
  - destruct (pod_tab pod); [| discriminate].
    destruct (nth_error (filteredLoads TabPending (loads st)) row) as [l |];
      [| discriminate].
    destruct (handleUpload l file now st pod) as [[st' pod'] effs]. discriminate.
Qed.

(** How an action changes the loads of the store: not at all, by one
    delivery of a pending load, or by one load created with the clock
    reading as id. *)
Lemma step_loads (a : Action) (u : UI) :
  loads (ui_store (step a u)) = loads (ui_store u)
  \/ (exists now l0,
        In l0 (loads (ui_store u)) /\ load_status l0 = Planned /\
        loads (ui_store (step a u))
        = map (fun l => if load_id l =? load_id l0 then deliver now l else l)
              (loads (ui_store u)))
  \/ (exists now stamp l,
        a = ClickCreateLoad now stamp /\ load_id l = now /\
        loads (ui_store (step a u)) = loads (ui_store u) ++ [l]).
Proof.
  destruct u as [st pg]. unfold step. simpl.
  destruct pg as [pg | p ds | | pod |].
  - left. unfold stepSites.
    destruct a as [r | | row | row | row | row | s | s | s | now | | g | v | now | | row | row | g | v | | now stamp | | row | row | s | s | now | | t | row file now];
      simpl; split_gates; try reflexivity.
    + now destruct r.
    + unfold handleSaveSite.
      destruct (negb (truthy_str (f_name (formSite pg)))); [reflexivity |].
      now destruct (truthy_num (m_editId (siteModal pg))).
    + unfold handleAddTank.
      destruct (nt_capacity (newTank pg) =? 0); [reflexivity |].
      now destruct (tankModalFor pg).
  - unfold stepPlanner.
    destruct a as [r | | row | row | row | row | s | s | s | now | | g | v | now | | row | row | g | v | | now stamp | | row | row | s | s | now | | t | row file now];
      simpl; split_gates; try (now left).
    + left. now destruct r.
    + unfold handleCreateLoad. simpl.
      destruct (negb (truthy (p_siteId p)) || negb (truthy (p_driverId p))
                || (List.length (p_items p) =? 0)%nat); simpl; [now left |].
      right. right. eexists now, stamp, _. repeat split. reflexivity.
    + left. unfold handleSave.
      destruct (negb (truthy_str (df_name (form ds)))); [reflexivity |].
      now destruct (truthy_num (m_editId (modal ds))).
  - left. destruct a; try reflexivity. now destruct r.
  - unfold stepPod.
    destruct a as [r | | row | row | row | row | s | s | s | now | | g | v | now | | row | row | g | v | | now stamp | | row | row | s | s | now | | t | row file now];
      simpl; try (now left).
    + left. now destruct r.
    + destruct (pod_tab pod); [| now left].
      destruct (nth_error (filteredLoads TabPending (loads st)) row) as [l0 |] eqn:E;
        [| now left].
      destruct file as [f |]; simpl; [| now left].
      right. left. exists now, l0.
      apply nth_error_In in E. apply filter_In in E. destruct E as [Hin Hst].
      repeat split; [exact Hin | now apply status_is_planned].
  - now left.
Qed.

Lemma step_keeps_delivered (a : Action) (u : UI) :
  NoDup (map load_id (loads (ui_store u))) -> clock_fresh u a ->
  NoDup (map load_id (loads (ui_store (step a u)))) /\
  (forall l, In l (loads (ui_store u)) -> load_status l = Delivered ->
             In l (loads (ui_store (step a u)))).
Proof.
  intros Hnd Hfresh.
  destruct (step_loads a u) as [E | [(now & l0 & Hin0 & Hst0 & E)
                                    | (now & stamp & l' & Ea & Hid & E)]];
    rewrite E.
  - now split.
  - split.
    + now rewrite (map_key_update load_id (load_id l0) (deliver now)).
    + intros l Hin Hst. apply in_map_iff. exists l. split; [| exact Hin].
      destruct (Z.eqb_spec (load_id l) (load_id l0)) as [Ek | _]; [| reflexivity].
      exfalso.
      assert (l = l0) by (eapply (same_key_same_entry load_id); eassumption).
      congruence.
  - split.
    + rewrite map_app. simpl. subst a. simpl in Hfresh.
      apply NoDup_app; [exact Hnd | constructor; [intros [] | constructor] |].
      intros x Hx [<- | []]. rewrite Hid in Hx. contradiction.
    + intros l Hin _. apply in_or_app. now left.
Qed.

End Session_more.

(** X13. In a session every site of the store has a name and every
    driver has a name, and every tank has a capacity that is not 0:
    the save handlers refuse an empty name and a capacity of 0, and an
    edit changes neither the tanks nor the id. *)
Theorem session_keeps_names (acts : list Action) :
  let st := ui_store (runUI acts initialUI) in
  Forall (fun s => site_name s <> "") (sites st) /\
  Forall (fun s => Forall (fun t => tank_capacity t <> 0) (site_tanks s))
         (sites st) /\
  Forall (fun d => driver_name d <> "") (drivers st).
Proof.
  destruct (runUI_ok acts initialUI initialUI_ok) as [(Hs & Hd & _) _].
  cbv zeta. repeat split; try exact Hd.
  - eapply Forall_impl; [| exact Hs]. now intros s [H _].
  - eapply Forall_impl; [| exact Hs]. now intros s [_ H].
Qed.

(** X14. In a session every load of the store has at least one item,
    only quantities that are not 0, a site and a driver that are set, and
    a delivery time exactly when its status is Delivered. *)
Theorem session_keeps_loads_well_formed (acts : list Action) :
  Forall (fun l =>
            load_items l <> [] /\
            Forall (fun i => item_qty i <> 0) (load_items l) /\
            truthy (load_siteId l) = true /\
            truthy (load_driverId l) = true /\
            (load_status l = Delivered <-> load_deliveredAt l <> None))
         (loads (ui_store (runUI acts initialUI))).
Proof.
  destruct (runUI_ok acts initialUI initialUI_ok) as [(_ & _ & Hl) _].
  eapply Forall_impl; [| exact Hl].
  intros l (H1 & H2 & _ & H4 & H5 & H6). auto.
Qed.

(** X15. In a session the planner's site cell is empty or holds the id of
    a site of the store, so the notification of a load that the planner
    creates is never rejected: the site that its message names is found. *)
Theorem created_load_is_announced (acts : list Action) (now stamp : Z)
    (nav : Navigator) :
  match ui_page (runUI acts initialUI) with
  | OnPlanner p ds =>
      let st := ui_store (runUI acts initialUI) in
      site_selected st p /\
      forall load driver,
        In (NotifyDriver load driver)
           (snd (handleCreateLoad now stamp (mkApp st p))) ->
        exists effs, notifyDriver nav (sites st) load driver = Return effs
  | _ => True
  end.
Proof.
  pose proof (runUI_ok acts initialUI initialUI_ok) as [_ Hp].
  destruct (ui_page (runUI acts initialUI)) as [| p ds | | |]; try exact I.
  destruct Hp as (_ & _ & Hsel & _). cbv zeta. split; [exact Hsel |].
  intros load driver. unfold handleCreateLoad. simpl.
  destruct (negb (truthy (p_siteId p)) || negb (truthy (p_driverId p))
            || (List.length (p_items p) =? 0)%nat) eqn:G; simpl.
  - intros [H | []]. discriminate.
  - intros [H | [H | []]]; [discriminate |]. inversion H; subst. clear H.
    apply orb_false_iff in G. destruct G as [G _].
    apply orb_false_iff in G. destruct G as [Gs _].
    apply negb_false_iff in Gs.
    destruct Hsel as [E | (s & Hs & E)]; [rewrite E in Gs; discriminate |].
    unfold notifyDriver. simpl. rewrite E.
    destruct (findSite (sites (ui_store (runUI acts initialUI)))
                       (Selected (site_id s))) as [site |] eqn:F.
    + destruct (nav_share nav) as [share |].
      * destruct (share _ _); eexists; reflexivity.
      * destruct (nav_writeText nav _); eexists; reflexivity.
    + exfalso. revert F. now apply (find_present site_id).
Qed.

(** X16. A session breaks down in one way only: when the planner is
    opened from another page while some Planned load names a site that is
    no longer in the store.  No action on the sites page, the map or the
    proof-of-delivery page breaks it, and no action on the planner. *)
Theorem crash_only_on_opening_planner (acts : list Action) (a : Action) :
  let u := runUI acts initialUI in
  ui_page u <> Crashed ->
  (ui_page (step a u) = Crashed
   <-> a = Go ToPlanner /\
       (forall p ds, ui_page u <> OnPlanner p ds) /\
       dangling_planned (ui_store u)).
Proof.
  cbv zeta. pose proof (runUI_ok acts initialUI initialUI_ok) as [Hst Hp].
  destruct (runUI acts initialUI) as [st pg]. simpl in *. intros Halive.
  unfold step. simpl. destruct pg as [pg | p ds | | pod |].
  - split.
    + intros H. destruct (stepSites_crash a st pg H) as [-> Hd].
      repeat split; [discriminate | exact Hd].
    + intros (-> & _ & Hd). simpl.
      now destruct (showPlanner_cases st (mountPlanner st) mountDriversSection)
        as [[_ N] | [-> _]].
  - split.
    + intros H. now destruct (proj2 (stepPlanner_ok a st p ds Hst Hp)).
    + intros (_ & N & _). now destruct (N p ds).
  - split.
    + destruct a; simpl; try discriminate. destruct r; simpl; try discriminate.
      intros H. destruct (mount_crash ToPlanner st H) as [_ Hd].
      repeat split; [discriminate | exact Hd].
    + intros (-> & _ & Hd). simpl.
      now destruct (showPlanner_cases st (mountPlanner st) mountDriversSection)
        as [[_ N] | [-> _]].
  - split.
    + intros H. destruct (stepPod_crash a st pod H) as [-> Hd].
      repeat split; [discriminate | exact Hd].
    + intros (-> & _ & Hd). simpl.
      now destruct (showPlanner_cases st (mountPlanner st) mountDriversSection)
        as [[_ N] | [-> _]].
  - now destruct Halive.
Qed.

(** A session that breaks down: a load is planned for site 101, the site
    is deleted on the sites page, and the planner is opened again. *)
Lemma crash_only_on_opening_planner_witness :
  let acts := [Go ToPlanner; TypeQty 5000; ClickAdd;
               ClickCreateLoad 1750000000000 1750000000001;
               Go ToSites; ClickDeleteSite 0] in
  ui_page (runUI acts initialUI) = OnSites mountSitesPage /\
  ui_page (step (Go ToPlanner) (runUI acts initialUI)) = Crashed.
Proof.
  cbv zeta. split; [reflexivity |].
  apply (crash_only_on_opening_planner
           [Go ToPlanner; TypeQty 5000; ClickAdd;
            ClickCreateLoad 1750000000000 1750000000001;
            Go ToSites; ClickDeleteSite 0] (Go ToPlanner)).
  - vm_compute. discriminate.
  - split; [reflexivity | split].
    + intros p ds. vm_compute. discriminate.
    + eexists. vm_compute. split; [left; reflexivity | split; reflexivity].
Defined.

(** X17. While no load is created with a clock reading that is already
    the id of a load, the ids of the loads stay distinct and a Delivered
    load is never touched again: it is in the store, with the same
    delivery time, after every further action of the session. *)
Theorem delivered_load_is_final (acts : list Action) (u : UI) :
  NoDup (map load_id (loads (ui_store u))) ->
  clock_fresh_run acts u ->
  NoDup (map load_id (loads (ui_store (runUI acts u)))) /\
  (forall l, In l (loads (ui_store u)) -> load_status l = Delivered ->
             In l (loads (ui_store (runUI acts u)))).
Proof.
  revert u. induction acts as [| a acts IH]; intros u Hnd Hrun; simpl.
  - now split.
  - destruct Hrun as [Hfresh Hrest].
    destruct (step_keeps_delivered a u Hnd Hfresh) as [Hnd' Hkeep].
    destruct (IH (step a u) Hnd' Hrest) as [Hnd'' Hkeep'].
    split; [exact Hnd'' |]. intros l Hin Hst. apply Hkeep'; [| exact Hst].
    now apply Hkeep.
Qed.

(** A load is planned and delivered; a second load is planned and
    delivered later: the first load is still there, delivered at 2000. *)
Lemma delivered_load_is_final_witness :
  let first := [Go ToPlanner; TypeQty 5000; ClickAdd; ClickCreateLoad 1000 1001;
                Go ToPod; AttachPod 0 (Some "blob:1") 2000] in
  let later := [Go ToPlanner; TypeQty 800; ClickAdd; ClickCreateLoad 3000 3001;
                Go ToPod; AttachPod 0 (Some "blob:2") 4000] in
  In (mkLoad 1000 (Selected 101) (Selected 1) [mkItem Regular 5000]
             Delivered 1001 (Some 2000))
     (loads (ui_store (runUI later (runUI first initialUI)))).
Proof.
  cbv zeta.
  apply (delivered_load_is_final
           [Go ToPlanner; TypeQty 800; ClickAdd; ClickCreateLoad 3000 3001;
            Go ToPod; AttachPod 0 (Some "blob:2") 4000]
           (runUI [Go ToPlanner; TypeQty 5000; ClickAdd; ClickCreateLoad 1000 1001;
                   Go ToPod; AttachPod 0 (Some "blob:1") 2000] initialUI)).
  - vm_compute. constructor; [intros [] | constructor].
  - vm_compute. repeat split. intros [H | []]. discriminate.
  - vm_compute. left. reflexivity.
  - reflexivity.
Defined.

(** * More properties of the live map *)

Section Distance_facts.

Local Open Scope R_scope.

Lemma haversineDistance_self (lon lat lon' lat' : R) :
  lon' = lon -> lat' = lat ->
  haversineDistance (Fin lon, Fin lat) (Fin lon', Fin lat') = Fin 0.
Proof.
  intros -> ->. rewrite haversineDistance_fin. cbv zeta.
  replace ((lat - lat) * PI / 180 / 2) with 0 by field.
  replace ((lon - lon) * PI / 180 / 2) with 0 by field.
  rewrite sin_0.
  replace (0 * 0 + cos (lat * PI / 180) * cos (lat * PI / 180) * (0 * 0))
    with 0 by ring.
  replace (1 - 0) with 1 by ring.
  unfold Math_sqrt.
  destruct (Rlt_dec 0 0) as [N | _]; [lra |].
  destruct (Rlt_dec 1 0) as [N | _]; [lra |].
  rewrite sqrt_0, sqrt_1. unfold Math_atan2, atan2_fin.
  destruct (Rlt_dec 0 1) as [_ | N]; [| lra].
  replace (0 / 1) with 0 by lra. rewrite atan_0.
  cbn [num_mul]. f_equal. ring.
Qed.

Lemma eta_of_zero (s : R) :
  s <> 0 -> Math_round (Fin 0 / Fin s * Fin 60)%num = Fin 0.
Proof.
  intros Hs. cbn [num_div].
  destruct (Req_dec_T s 0) as [E | _]; [contradiction |].
  cbn [num_mul Math_round].
  replace (0 / s * 60 + / 2) with (/ 2) by (field; exact Hs).
  rewrite (Zfloor_eq 0); [reflexivity | simpl; lra].
Qed.

End Distance_facts.

(** X19. From a point of the globe (a longitude from -180 to 180, a
    latitude from -90 to 90) to itself the distance is 0 km and, at a
    finite speed that is not 0, the estimate is 0 minutes. *)
Theorem estimate_to_itself (lon lat s : R) :
  (-180 <= lon <= 180)%R ->
  (-90 <= lat <= 90)%R ->
  s <> 0%R ->
  estimate (Fin lon, Fin lat) (Fin lon, Fin lat) (Fin s) = (Fin 0, Fin 0).
Proof.
  intros _ _ Hs. unfold estimate.
  rewrite (haversineDistance_self lon lat lon lat eq_refl eq_refl).
  now rewrite eta_of_zero.
Qed.

Lemma estimate_to_itself_witness :
  estimate (Fin 1, Fin 2) (Fin 1, Fin 2) (Fin 55) = (Fin 0, Fin 0).
Proof.
  apply (estimate_to_itself 1 2 55); lra.
Defined.

(** X20. Whatever the store holds, when the map and its markers were set
    up the toast of [handleETA] reports 0 minutes and 0 km: the first
    driver's marker is placed on the coordinates that the handler takes
    for the site.  The handler shows nothing when the map could not be
    created, when the markers could not be placed or when there is no
    driver, and throws when there is a driver and no site. *)
Theorem handleETA_reports_zero (o : MountOutcome) (st : Store) :
  handleETA (fst (mountMap o st)) (snd (mountMap o st)) (sites st)
  = match o with
    | Mounted =>
        match drivers st, sites st with
        | [], _ => Return []
        | _ :: _, [] => Throw TypeError
        | _ :: _, site :: _ => Return [ToastETA (site_name site) (Fin 0) (Fin 0)]
        end
    | MapThrows | MarkersThrow => Return []
    end.
Proof.
  destruct o; [reflexivity | reflexivity |].
  unfold mountMap, driverMarkers. cbn [fst snd].
  destruct (drivers st) as [| d ds]; [reflexivity |].
  unfold handleETA. cbn [negb List.length seq map nth_error].
  assert (E : estimate (markerPosition 0) (Fin (-84.51), Fin 39.10) (Fin 55)
              = (Fin 0, Fin 0)).
  { unfold estimate, markerPosition. cbn [num_add num_mul INR].
    rewrite haversineDistance_self by lra.
    rewrite eta_of_zero by lra. reflexivity. }
  rewrite E. now destruct (sites st).
Qed.

(** * More properties of the planner and of the save handlers *)

(** X21. Typing and adding positive integer quantities one after the
    other, onto items that hold integers added exactly, when the sum of
    all is at most 8,800, appends them all: the item list is the list
    before followed by one item for each quantity, in order and with the
    grade selected, none merged and none refused, and the total is the
    sum of all. *)
Theorem addAll_accepts_all (qs zs : list Z) (p : Float64.Planner) :
  Float64.quantities (Float64.p_items p) zs ->
  running_safe 0 zs ->
  Forall (fun q => 0 < q < 2 ^ 53) qs ->
  sumZ zs + sumZ qs <= 8800 ->
  Float64.p_items (Float64.addAll (map D_of_Z qs) p)
  = Float64.p_items p
    ++ map (Float64.mkItem (Float64.p_grade p)) (map D_of_Z qs) /\
  List.length (Float64.p_items (Float64.addAll (map D_of_Z qs) p))
  = (List.length (Float64.p_items p) + List.length qs)%nat /\
  Float64.totalQty (Float64.p_items (Float64.addAll (map D_of_Z qs) p))
  = D_of_Z (sumZ zs + sumZ qs).
Proof.
  intros Hq Hr Hpos Hsum.
  assert (H : Float64.p_items (Float64.addAll (map D_of_Z qs) p)
              = Float64.p_items p
                ++ map (Float64.mkItem (Float64.p_grade p)) (map D_of_Z qs)
              /\ Float64.quantities
                   (Float64.p_items (Float64.addAll (map D_of_Z qs) p))
                   (zs ++ qs)
              /\ running_safe 0 (zs ++ qs)).
  { revert zs p Hq Hr Hsum.
    induction Hpos as [| q qs Hq0 Hrest IH]; intros zs p Hq Hr Hsum.
    - simpl. rewrite !app_nil_r. auto.
    - pose proof (sumZ_positive qs Hrest) as Hnn. simpl in Hsum.
      pose proof (running_safe_sum zs 0 safe_0 Hr) as Hs. simpl in Hs.
      assert (Hr' : running_safe 0 (zs ++ [q])).
      { apply running_safe_app. split; [exact Hr |]. simpl.
        unfold safe in *. repeat split; lia. }
      unfold Float64.addAll in *. simpl.
      rewrite (addItem_on_integers (Float64.setQty (D_of_Z q) p) zs q Hq eq_refl Hr').
      destruct (Z.eqb_spec q 0) as [E | _]; [lia |].
      destruct (Z.ltb_spec 8800 (sumZ zs + q)) as [Hgt | _]; [lia |].
      cbn [fst].
      specialize (IH (zs ++ [q]) (Float64.appended (Float64.setQty (D_of_Z q) p))).
      destruct IH as (I1 & I2 & I3).
      + simpl. now apply quantities_snoc.
      + exact Hr'.
      + rewrite sumZ_app. simpl. lia.
      + simpl in I1. rewrite <- app_assoc in I1, I2, I3. auto. }
  destruct H as (H1 & H2 & H3). split; [exact H1 | split].
  - rewrite H1, length_app, !length_map. reflexivity.
  - rewrite (totalQty_exact _ (zs ++ qs) H2 H3). now rewrite sumZ_app.
Qed.

Lemma addAll_accepts_all_witness :
  Float64.p_items
    (Float64.addAll (map D_of_Z [5000; 3000; 800])
                    (Float64.mountPlanner Float64.initialStore))
  = [Float64.mkItem Regular (D_of_Z 5000);
     Float64.mkItem Regular (D_of_Z 3000);
     Float64.mkItem Regular (D_of_Z 800)].
Proof.
  destruct (addAll_accepts_all [5000; 3000; 800] []
              (Float64.mountPlanner Float64.initialStore)) as [H _].
  - reflexivity.
  - exact I.
  - repeat constructor.
  - vm_compute. discriminate.
  - rewrite H. reflexivity.
Defined.

(** X24. On a planner whose items and quantity hold integers of fewer than
    54 bits, with sums from left to right of fewer than 54 bits, [addItem]
    on doubles does what [addItem] on integers does: the same toast, or
    the same item appended. *)
Theorem addItem_integer_reading (p : Planner) :
  running_safe 0 (map item_qty (p_items p) ++ [p_qty p]) ->
  Float64.addItem (planner_of_Z p)
  = (planner_of_Z (fst (addItem p)), map effect_of_Z (snd (addItem p))).
Proof.
  intros Hr.
  assert (Hq : Float64.quantities (Float64.p_items (planner_of_Z p))
                                  (map item_qty (p_items p))).
  { unfold Float64.quantities. simpl. rewrite !map_map. reflexivity. }
  rewrite (addItem_on_integers (planner_of_Z p) _ (p_qty p) Hq eq_refl Hr).
  rewrite <- totalQty_sumZ. unfold addItem.
  destruct (p_qty p =? 0); [reflexivity |].
  rewrite Z.gtb_ltb. change maxGal with 8800.
  destruct (8800 <? totalQty (p_items p) + p_qty p); [reflexivity |].
  unfold Float64.appended, planner_of_Z. simpl. now rewrite map_app.
Qed.

Lemma addItem_integer_reading_witness :
  let p := {| p_siteId := Selected 101; p_driverId := Selected 1;
              p_items := [mkItem Regular 5000; mkItem Premium 3000];
              p_grade := Diesel; p_qty := 800 |} in
  Float64.addItem (planner_of_Z p)
  = ({| Float64.p_siteId := Selected 101; Float64.p_driverId := Selected 1;
        Float64.p_items := [Float64.mkItem Regular (D_of_Z 5000);
                            Float64.mkItem Premium (D_of_Z 3000);
                            Float64.mkItem Diesel (D_of_Z 800)];
        Float64.p_grade := Diesel;
        Float64.p_qty := D_of_Z 0 |}, []).
Proof.
  cbv zeta.
  rewrite (addItem_integer_reading
             {| p_siteId := Selected 101; p_driverId := Selected 1;
                p_items := [mkItem Regular 5000; mkItem Premium 3000];
                p_grade := Diesel; p_qty := 800 |}).
  - reflexivity.
  - vm_compute. repeat split.
Defined.

(** X22. "Create Load" clicked twice creates one load: after a call of
    [handleCreateLoad], whether it created a load or not, a second call
    is refused with "Fill all fields" and changes nothing. *)
Theorem handleCreateLoad_twice (now stamp now' stamp' : Z) (a : App) :
  handleCreateLoad now' stamp' (fst (handleCreateLoad now stamp a))
  = (fst (handleCreateLoad now stamp a), [ToastError "Fill all fields"]).
Proof.
  unfold handleCreateLoad at 2 3.
  destruct (negb (truthy (p_siteId (planner a)))
            || negb (truthy (p_driverId (planner a)))
            || (List.length (p_items (planner a)) =? 0)%nat) eqn:G; simpl.
  - unfold handleCreateLoad. now rewrite G.
  - unfold handleCreateLoad. simpl. now rewrite !orb_true_r.
Qed.

(** X23. A save for an entry that is gone is reported as done.  When no
    site has the id that the tank form or the site form was opened for,
    [handleAddTank] shows "Tank added" and [handleSaveSite] "Site
    updated", and the store is the one before; so does [handleSave] with
    "Driver updated" for a driver. *)
Theorem save_for_missing_entry (now id : Z) (st : Store) :
  id <> 0 ->
  (~ In id (map site_id (sites st)) ->
   (forall pg, tankModalFor pg = Some id -> nt_capacity (newTank pg) <> 0 ->
      fst (fst (handleAddTank now st pg)) = st /\
      snd (handleAddTank now st pg) = [ToastSuccess "Tank added"]) /\
   (forall pg, m_editId (siteModal pg) = Some id -> f_name (formSite pg) <> "" ->
      fst (fst (handleSaveSite now st pg)) = st /\
      snd (handleSaveSite now st pg) = [ToastSuccess "Site updated"])) /\
  (~ In id (map driver_id (drivers st)) ->
   forall ds, m_editId (modal ds) = Some id -> df_name (form ds) <> "" ->
     fst (fst (handleSave now st ds)) = st /\
     snd (handleSave now st ds) = [ToastSuccess "Driver updated"]).
Proof.
  intros Hid. destruct st as [ss dsl ls]. simpl. split.
  - intros Hno. pose proof (absent_id site_id id ss Hno) as Ha. split.
    + intros pg Hfor Hcap. unfold handleAddTank.
      rewrite (proj2 (Z.eqb_neq _ _) Hcap), Hfor. simpl.
      split; [| reflexivity]. unfold addTankToSite, setSites. simpl. f_equal.
      now apply (map_unless (fun s => site_id s =? id)).
    + intros pg Hed Hname. unfold handleSaveSite.
      rewrite (proj2 (truthy_str_true _) Hname), Hed, (truthy_num_some _ Hid).
      simpl. split; [| reflexivity]. unfold updateSite, setSites. simpl. f_equal.
      now apply (map_unless (fun s => site_id s =? id)).
  - intros Hno ds Hed Hname.
    pose proof (absent_id driver_id id dsl Hno) as Ha. unfold handleSave.
    rewrite (proj2 (truthy_str_true _) Hname), Hed, (truthy_num_some _ Hid).
    simpl. split; [| reflexivity]. unfold updateDriver, setDrivers. simpl. f_equal.
    now apply (map_unless (fun d => driver_id d =? id)).
Qed.

(** The tank form is opened for site 101, the site is deleted, and the
    tank is saved: "Tank added", and no site in the store. *)
Lemma save_for_missing_entry_witness :
  let pg := setNewTank (fun _ => mkTankForm Diesel 500)
              (setTankModalFor (Some 101) mountSitesPage) in
  let st := deleteSite 101 initialStore in
  handleAddTank 7 st pg
  = (st, mountSitesPage, [ToastSuccess "Tank added"]) /\ sites st = [].
Proof.
  cbv zeta.
  destruct (save_for_missing_entry 7 101 (deleteSite 101 initialStore))
    as [Hsites _].
  - discriminate.
  - destruct Hsites as [Htank _].
    + vm_compute. intros [].
    + destruct (Htank (setNewTank (fun _ => mkTankForm Diesel 500)
                         (setTankModalFor (Some 101) mountSitesPage)))
        as [Hst Htoast].
      * reflexivity.
      * vm_compute. discriminate.
      * split; [| reflexivity].
        destruct (handleAddTank 7 (deleteSite 101 initialStore)
                    (setNewTank (fun _ => mkTankForm Diesel 500)
                       (setTankModalFor (Some 101) mountSitesPage)))
          as [[st' pg'] effs] eqn:E.
        simpl in Hst, Htoast. subst st' effs. f_equal. f_equal.
        apply (f_equal (fun r => snd (fst r))) in E. simpl in E.
        rewrite <- E. reflexivity.
Defined.

(** The message of the notification for a load of two items. *)
Example notifyMessage_two_items :
  notifyMessage "Shell – Clifton"
    (mkLoad 7 (Selected 101) (Selected 1)
            [mkItem Regular 5000; mkItem Premium 3000] Planned 8 None)
  = "Load for Shell – Clifton: 5000 gal Regular, 3000 gal Premium".
Proof. reflexivity. Qed.
